(** * Exemplar reservoirs of the OpenTelemetry Python SDK

    A shallow embedding of
    [opentelemetry/sdk/metrics/_internal/exemplar/exemplar_reservoir.py]:
    the bucket primitive [ExemplarBucket], the fixed-size base class
    [FixedSizeExemplarReservoirABC] and its two subclasses
    [SimpleFixedSizeExemplarReservoir] and
    [AlignedHistogramBucketExemplarReservoir].

    Python objects are records, a method is a function from the receiver to
    an outcome and the receiver after the call, and an exception is an
    outcome of its own: the receiver keeps whatever was written to it before
    the exception was raised. *)

From stdpp Require Import base numbers option list sorting gmap strings.

Local Open Scope Z_scope.

(** ** Outcomes of a call *)

Inductive exn : Type :=
  | TypeError
  | ValueError
  | IndexError.

Inductive result (A : Type) : Type :=
  | Ok (a : A)
  | Raise (e : exn).

Arguments Ok {A} a.
Arguments Raise {A} e.

Definition raises {A : Type} (r : result A) : bool :=
  match r with
  | Ok _ => false
  | Raise _ => true
  end.

(** A method call on a receiver of type [S]: the outcome and the receiver
    after the call. *)
Definition M (S A : Type) : Type := S → result A * S.

Global Instance M_ret {S : Type} : MRet (M S) := λ A a s, (Ok a, s).

Global Instance M_bind {S : Type} : MBind (M S) :=
  λ A B k m s,
    match m s with
    | (Ok a, s') => k a s'
    | (Raise e, s') => (Raise e, s')
    end.

Definition gets {S A : Type} (f : S → A) : M S A := λ s, (Ok (f s), s).

(** ** What the module imports

    [opentelemetry.trace], [opentelemetry.context] and
    [opentelemetry.util.types] are collaborators: their types and the two
    functions the reservoir calls are taken as an interface.  [Number] is
    [Union[int, float]] with the literal [0] and Python's [<=];
    [Span] objects are compared by identity. *)

Record SpanContext : Type := mkSpanContext {
  span_id : Z;
  trace_id : Z;
}.

Class Collaborators : Type := {
  Number : Type;
  Number_zero : Number;
  Number_le : Number → Number → bool;
  AttributeValue : Type;
  Context : Type;
  Span : Type;
  Span_eq_dec :: EqDecision Span;
  INVALID_SPAN : Span;
  get_current_span : Context → Span;
  get_span_context : Span → SpanContext;
}.

(** [randrange(start, stop)] of Python's [random]: an empty range raises
    [ValueError]; otherwise the result lies in [[start, stop)].  [draw] is
    the raw output of the random source for this call. *)
Definition randrange (draw start stop : Z) : result Z :=
  if start <? stop then Ok (start + draw `mod` (stop - start))
  else Raise ValueError.

(** [object.__init__] called with [kwargs]: keyword arguments that reach
    [object] are a [TypeError].  Only the names of the keywords matter. *)
Definition object_init (kwargs : list string) : result () :=
  match kwargs with
  | [] => Ok ()
  | _ :: _ => Raise TypeError
  end.

(** [l[i]] for a Python list: a negative index counts from the end, an
    index outside the list raises [IndexError]. *)
Definition list_index {A : Type} (l : list A) (i : Z) : result nat :=
  let n := Z.of_nat (length l) in
  let j := if i <? 0 then i + n else i in
  if (0 <=? j) && (j <? n) then Ok (Z.to_nat j) else Raise IndexError.

Section Reservoirs.
Context `{Collaborators}.

(** [Attributes = Optional[Mapping[str, AttributeValue]]] *)
Definition Attributes : Type := option (gmap string AttributeValue).

(** The [Exemplar] value object of [.exemplar], built positionally by
    [ExemplarBucket.collect]. *)
Record Exemplar : Type := mkExemplar {
  ex_filtered_attributes : Attributes;
  ex_value : Number;
  ex_time_unix_nano : Z;
  ex_span_id : option Z;
  ex_trace_id : option Z;
}.

(** ** [class ExemplarBucket] *)

Record ExemplarBucket : Type := mkExemplarBucket {
  __value : Number;
  __attributes : Attributes;
  __time_unix_nano : Z;
  __span_id : option Z;
  __trace_id : option Z;
  __offered : bool;
}.

Definition ExemplarBucket_init : ExemplarBucket :=
  {| __value := Number_zero;
     __attributes := None;
     __time_unix_nano := 0;
     __span_id := None;
     __trace_id := None;
     __offered := false |}.

Definition ExemplarBucket_offer (value : Number) (time_unix_nano : Z)
    (attributes : Attributes) (ctx : Context)
    (self : ExemplarBucket) : ExemplarBucket :=
  let span := get_current_span ctx in
  if bool_decide (span ≠ INVALID_SPAN) then
    let span_context := get_span_context span in
    {| __value := value;
       __attributes := attributes;
       __time_unix_nano := time_unix_nano;
       __span_id := Some (span_id span_context);
       __trace_id := Some (trace_id span_context);
       __offered := true |}
  else
    {| __value := value;
       __attributes := attributes;
       __time_unix_nano := time_unix_nano;
       __span_id := __span_id self;
       __trace_id := __trace_id self;
       __offered := true |}.

Definition ExemplarBucket_reset (self : ExemplarBucket) : ExemplarBucket :=
  {| __value := Number_zero;
     __attributes := Some ∅;
     __time_unix_nano := 0;
     __span_id := None;
     __trace_id := None;
     __offered := false |}.

(** The dict comprehension of [collect]: the items of [attributes] whose
    key is not in [point_attributes].  [k not in point_attributes] is
    evaluated once per item, and [in] on [None] is a [TypeError]. *)
Definition comprehension (attributes : gmap string AttributeValue)
    (point_attributes : Attributes) : result Attributes :=
  match point_attributes with
  | None =>
      if bool_decide (attributes = ∅) then Ok (Some ∅) else Raise TypeError
  | Some p =>
      Ok (Some (filter (λ kv : string * AttributeValue, p !! kv.1 = None)
                  attributes))
  end.

(** The conditional expression of [collect]: [None] and the empty mapping
    are false as a condition. *)
Definition filtered_attributes (attributes point_attributes : Attributes)
    : result Attributes :=
  match attributes with
  | None => Ok None
  | Some m =>
      if bool_decide (m ≠ ∅) then comprehension m point_attributes
      else Ok None
  end.

Definition ExemplarBucket_collect (point_attributes : Attributes)
    : M ExemplarBucket (option Exemplar) :=
  λ self,
    if negb (__offered self) then (Ok None, self)
    else
      match filtered_attributes (__attributes self) point_attributes with
      | Raise e => (Raise e, self)
      | Ok fa =>
          let exemplar :=
            mkExemplar fa (__value self) (__time_unix_nano self)
              (__span_id self) (__trace_id self) in
          (Ok (Some exemplar), ExemplarBucket_reset self)
      end.

(** ** [class FixedSizeExemplarReservoirABC] *)

Record FixedSizeExemplarReservoirABC : Type := mkFixedSize {
  _size : Z;
  _reservoir_storage : list ExemplarBucket;
}.

(** [range(size)] is empty for [size <= 0]. *)
Definition FixedSizeExemplarReservoirABC_init (size : Z)
    (kwargs : list string) : result FixedSizeExemplarReservoirABC :=
  match object_init kwargs with
  | Raise e => Raise e
  | Ok _ =>
      Ok {| _size := size;
            _reservoir_storage :=
              replicate (Z.to_nat size) ExemplarBucket_init |}
  end.

Definition maxSize (self : FixedSizeExemplarReservoirABC) : Z := _size self.

(** What a subclass gives the inherited methods: its base part, the
    write access to the bucket list and its own [_reset]. *)
Class FixedSizeSubclass (R : Type) : Type := {
  super : R → FixedSizeExemplarReservoirABC;
  set_reservoir_storage : list ExemplarBucket → R → R;
  _reset : R → R;
}.

(** [[*exemplars]]: the lazy [filter] over the lazy [map] is forced in
    bucket order; an exception of a bucket ends the iteration, the
    buckets visited so far stay reset. *)
Fixpoint collect_buckets (point_attributes : Attributes)
    (storage : list ExemplarBucket)
    : result (list Exemplar) * list ExemplarBucket :=
  match storage with
  | [] => (Ok [], [])
  | bucket :: rest =>
      match ExemplarBucket_collect point_attributes bucket with
      | (Raise e, bucket') => (Raise e, bucket' :: rest)
      | (Ok e, bucket') =>
          match collect_buckets point_attributes rest with
          | (Raise err, rest') => (Raise err, bucket' :: rest')
          | (Ok exemplars, rest') =>
              (Ok (match e with
                   | Some x => x :: exemplars
                   | None => exemplars
                   end), bucket' :: rest')
          end
      end
  end.

(** [filter] and [map] only build iterators: [_reset] runs first, the
    buckets are collected when the list is built. *)
Definition FixedSizeExemplarReservoirABC_collect `{FixedSizeSubclass R}
    (point_attributes : Attributes) : M R (list Exemplar) :=
  λ self,
    let self := _reset self in
    let '(exemplars, storage) :=
      collect_buckets point_attributes (_reservoir_storage (super self)) in
    (exemplars, set_reservoir_storage storage self).

(** [self._reservoir_storage[index].offer(...)] *)
Definition storage_offer `{FixedSizeSubclass R} (index : Z)
    (value : Number) (time_unix_nano : Z) (attributes : Attributes)
    (ctx : Context) : M R () :=
  λ self,
    let storage := _reservoir_storage (super self) in
    match list_index storage index with
    | Raise e => (Raise e, self)
    | Ok i =>
        (Ok (),
         set_reservoir_storage
           (alter (ExemplarBucket_offer value time_unix_nano attributes ctx)
              i storage) self)
    end.

(** ** [class SimpleFixedSizeExemplarReservoir] *)

Record SimpleFixedSizeExemplarReservoir : Type := mkSimple {
  Simple_super : FixedSizeExemplarReservoirABC;
  _measurements_seen : Z;
}.

Definition SimpleFixedSizeExemplarReservoir_init (size : Z)
    (kwargs : list string) : result SimpleFixedSizeExemplarReservoir :=
  match FixedSizeExemplarReservoirABC_init size kwargs with
  | Raise e => Raise e
  | Ok base => Ok {| Simple_super := base; _measurements_seen := 0 |}
  end.

(** The default [size: int = 1]. *)
Definition SimpleFixedSizeExemplarReservoir_init_default
    (kwargs : list string) : result SimpleFixedSizeExemplarReservoir :=
  SimpleFixedSizeExemplarReservoir_init 1 kwargs.

Definition SimpleFixedSizeExemplarReservoir_reset
    (self : SimpleFixedSizeExemplarReservoir)
    : SimpleFixedSizeExemplarReservoir :=
  {| Simple_super := Simple_super self; _measurements_seen := 0 |}.

#[export] Instance Simple_subclass
    : FixedSizeSubclass SimpleFixedSizeExemplarReservoir := {|
  super := Simple_super;
  set_reservoir_storage storage self :=
    {| Simple_super :=
         {| _size := _size (Simple_super self);
            _reservoir_storage := storage |};
       _measurements_seen := _measurements_seen self |};
  _reset := SimpleFixedSizeExemplarReservoir_reset;
|}.

Definition SimpleFixedSizeExemplarReservoir_find_bucket_index (draw : Z)
    (value : Number) (time_unix_nano : Z) (attributes : Attributes)
    (ctx : Context) : M SimpleFixedSizeExemplarReservoir Z :=
  λ self,
    if _measurements_seen self <? _size (Simple_super self)
    then (Ok (_measurements_seen self), self)
    else
      match randrange draw 0 (_measurements_seen self) with
      | Raise e => (Raise e, self)
      | Ok index =>
          (Ok (if index <? _size (Simple_super self) then index else -1),
           {| Simple_super := Simple_super self;
              _measurements_seen := _measurements_seen self + 1 |})
      end.

Definition SimpleFixedSizeExemplarReservoir_offer (draw : Z)
    (value : Number) (time_unix_nano : Z) (attributes : Attributes)
    (ctx : Context) : M SimpleFixedSizeExemplarReservoir () :=
  index ← SimpleFixedSizeExemplarReservoir_find_bucket_index
            draw value time_unix_nano attributes ctx;
  if bool_decide (index ≠ -1)
  then storage_offer index value time_unix_nano attributes ctx
  else mret ().

Definition SimpleFixedSizeExemplarReservoir_collect
    : Attributes → M SimpleFixedSizeExemplarReservoir (list Exemplar) :=
  FixedSizeExemplarReservoirABC_collect.

(** ** [class AlignedHistogramBucketExemplarReservoir] *)

Record AlignedHistogramBucketExemplarReservoir : Type := mkAligned {
  Aligned_super : FixedSizeExemplarReservoirABC;
  _boundaries : list Number;
}.

Definition AlignedHistogramBucketExemplarReservoir_init
    (boundaries : list Number) (kwargs : list string)
    : result AlignedHistogramBucketExemplarReservoir :=
  match
    FixedSizeExemplarReservoirABC_init
      (Z.of_nat (length boundaries) + 1) kwargs
  with
  | Raise e => Raise e
  | Ok base => Ok {| Aligned_super := base; _boundaries := boundaries |}
  end.

(** The inherited [_reset] is [pass]. *)
#[export] Instance Aligned_subclass
    : FixedSizeSubclass AlignedHistogramBucketExemplarReservoir := {|
  super := Aligned_super;
  set_reservoir_storage storage self :=
    {| Aligned_super :=
         {| _size := _size (Aligned_super self);
            _reservoir_storage := storage |};
       _boundaries := _boundaries self |};
  _reset self := self;
|}.

(** The [for i, boundary in enumerate(...)] loop from position [i] on;
    [None] when the loop falls through. *)
Fixpoint scan_boundaries (value : Number) (i : Z)
    (boundaries : list Number) : option Z :=
  match boundaries with
  | [] => None
  | boundary :: rest =>
      if Number_le value boundary then Some i
      else scan_boundaries value (i + 1) rest
  end.

Definition AlignedHistogramBucketExemplarReservoir_find_bucket_index
    (value : Number) (time_unix_nano : Z) (attributes : Attributes)
    (ctx : Context) (self : AlignedHistogramBucketExemplarReservoir) : Z :=
  match scan_boundaries value 0 (_boundaries self) with
  | Some i => i
  | None => Z.of_nat (length (_boundaries self))
  end.

Definition AlignedHistogramBucketExemplarReservoir_offer
    (value : Number) (time_unix_nano : Z) (attributes : Attributes)
    (ctx : Context) : M AlignedHistogramBucketExemplarReservoir () :=
  index ← gets (AlignedHistogramBucketExemplarReservoir_find_bucket_index
                  value time_unix_nano attributes ctx);
  storage_offer index value time_unix_nano attributes ctx.

Definition AlignedHistogramBucketExemplarReservoir_collect
    : Attributes → M AlignedHistogramBucketExemplarReservoir (list Exemplar) :=
  FixedSizeExemplarReservoirABC_collect.

(** ** The [ExemplarReservoir] interface

    The abstract classes cannot be instantiated: an [ExemplarReservoir] of
    this module is an instance of one of the two concrete classes, and
    [offer] and [collect] dispatch on it.  [draw] feeds [randrange] and is
    ignored by the histogram-aligned reservoir. *)

Inductive ExemplarReservoir : Type :=
  | Simple (r : SimpleFixedSizeExemplarReservoir)
  | Aligned (r : AlignedHistogramBucketExemplarReservoir).

Definition offer (draw : Z) (value : Number) (time_unix_nano : Z)
    (attributes : Attributes) (ctx : Context) : M ExemplarReservoir () :=
  λ self,
    match self with
    | Simple r =>
        prod_map id Simple
          (SimpleFixedSizeExemplarReservoir_offer
             draw value time_unix_nano attributes ctx r)
    | Aligned r =>
        prod_map id Aligned
          (AlignedHistogramBucketExemplarReservoir_offer
             value time_unix_nano attributes ctx r)
    end.

Definition collect (point_attributes : Attributes)
    : M ExemplarReservoir (list Exemplar) :=
  λ self,
    match self with
    | Simple r =>
        prod_map id Simple
          (SimpleFixedSizeExemplarReservoir_collect point_attributes r)
    | Aligned r =>
        prod_map id Aligned
          (AlignedHistogramBucketExemplarReservoir_collect point_attributes r)
    end.

Definition base_of (self : ExemplarReservoir) : FixedSizeExemplarReservoirABC :=
  match self with
  | Simple r => super r
  | Aligned r => super r
  end.

(** The states a reservoir can be in: built by a constructor that returned,
    then any sequence of [offer] and [collect] calls, whether they return
    or raise. *)
Inductive reachable : ExemplarReservoir → Prop :=
  | reachable_Simple size kwargs r :
      SimpleFixedSizeExemplarReservoir_init size kwargs = Ok r →
      reachable (Simple r)
  | reachable_Aligned boundaries kwargs r :
      AlignedHistogramBucketExemplarReservoir_init boundaries kwargs = Ok r →
      reachable (Aligned r)
  | reachable_offer draw value time_unix_nano attributes ctx self :
      reachable self →
      reachable (offer draw value time_unix_nano attributes ctx self).2
  | reachable_collect point_attributes self :
      reachable self →
      reachable (collect point_attributes self).2.

(** A measurement as passed to [offer]. *)
Record Measurement : Type := mkMeasurement {
  m_value : Number;
  m_time_unix_nano : Z;
  m_attributes : Attributes;
  m_ctx : Context;
}.

End Reservoirs.

(** ** Notions used by the statements *)

Section Notions.
Context `{Collaborators}.

(** The mapping an [Attributes] value stands for: absent is empty. *)
Definition attributes_map (a : Attributes) : gmap string AttributeValue :=
  default ∅ a.

(** A bucket that holds no sample: as built, or as left by [__reset]. *)
Definition blank (b : ExemplarBucket) : Prop :=
  b = ExemplarBucket_init ∨ b = ExemplarBucket_reset b.

(** [e] is the exemplar of the sample held by [b], its attributes being
    those of [b] without the keys of [point_attributes]. *)
Definition exemplar_of (point_attributes : Attributes) (b : ExemplarBucket)
    (e : Exemplar) : Prop :=
  attributes_map (ex_filtered_attributes e) =
    filter (λ kv : string * AttributeValue,
              attributes_map point_attributes !! kv.1 = None)
      (attributes_map (__attributes b)) ∧
  ex_value e = __value b ∧
  ex_time_unix_nano e = __time_unix_nano b ∧
  ex_span_id e = __span_id b ∧
  ex_trace_id e = __trace_id b.

(** The measurement counter of the uniform reservoir is at its reset
    value; the histogram-aligned reservoir has no counter. *)
Definition counter_reset (self : ExemplarReservoir) : Prop :=
  match self with
  | Simple r => _measurements_seen r = 0
  | Aligned _ => True
  end.

(** A call on a reservoir, and the state it leaves; a history is run from
    the left. *)
Inductive call : Type :=
  | Offer (draw : Z) (m : Measurement)
  | Collect (point_attributes : Attributes).

Definition step (self : ExemplarReservoir) (c : call) : ExemplarReservoir :=
  match c with
  | Offer draw m =>
      (offer draw (m_value m) (m_time_unix_nano m) (m_attributes m)
         (m_ctx m) self).2
  | Collect point_attributes => (collect point_attributes self).2
  end.

Definition run (history : list call) (self : ExemplarReservoir)
    : ExemplarReservoir :=
  foldl step self history.

(** [i] is the bucket of [value]: no boundary before position [i] is at
    least [value], and the boundary at [i] is, or [i] is past the last
    boundary. *)
Definition selects (value : Number) (boundaries : list Number) (i : nat)
    : Prop :=
  (∀ j boundary,
     (j < i)%nat → boundaries !! j = Some boundary →
     Number_le value boundary = false) ∧
  match boundaries !! i with
  | Some boundary => Number_le value boundary = true
  | None => i = length boundaries
  end.

(** What every reachable state satisfies: as many buckets as [range(size)]
    gave, every bucket without a sample blank, the counter of the uniform
    reservoir at 0, and one bucket more than boundaries in the
    histogram-aligned reservoir. *)
Definition invariant (self : ExemplarReservoir) : Prop :=
  length (_reservoir_storage (base_of self)) = Z.to_nat (_size (base_of self)) ∧
  Forall (λ b, __offered b = false → blank b)
    (_reservoir_storage (base_of self)) ∧
  match self with
  | Simple r => _measurements_seen r = 0
  | Aligned r =>
      _size (Aligned_super r) = Z.of_nat (length (_boundaries r)) + 1
  end.

(** The bucket holds a sample whose attributes are a non-empty mapping:
    the dict comprehension of [collect] will look at [point_attributes]. *)
Definition holds_attributes (b : ExemplarBucket) : bool :=
  __offered b &&
  match __attributes b with
  | Some m => bool_decide (m ≠ ∅)
  | None => false
  end.

(** The measurement [dm] (with its draw) goes to bucket [i] of the
    histogram-aligned reservoir [r]. *)
Definition routed (r : AlignedHistogramBucketExemplarReservoir) (i : nat)
    (dm : Z * Measurement) : bool :=
  bool_decide
    (AlignedHistogramBucketExemplarReservoir_find_bucket_index
       (m_value dm.2) (m_time_unix_nano dm.2) (m_attributes dm.2)
       (m_ctx dm.2) r = Z.of_nat i).

(** The bucket holds the sample of [m]: value, time and attributes. *)
Definition holds_sample (m : Measurement) (b : ExemplarBucket) : Prop :=
  __offered b = true ∧
  __value b = m_value m ∧
  __time_unix_nano b = m_time_unix_nano m ∧
  __attributes b = m_attributes m.

(** What the caller sees of a call: the exemplars of a [collect], nothing
    of an [offer], or the exception; and of a history, call by call. *)
Definition outcome (self : ExemplarReservoir) (c : call)
    : result (list Exemplar) :=
  match c with
  | Offer draw m =>
      match
        (offer draw (m_value m) (m_time_unix_nano m) (m_attributes m)
           (m_ctx m) self).1
      with
      | Ok _ => Ok []
      | Raise e => Raise e
      end
  | Collect point_attributes => (collect point_attributes self).1
  end.

Fixpoint outcomes (history : list call) (self : ExemplarReservoir)
    : list (result (list Exemplar)) :=
  match history with
  | [] => []
  | c :: history => outcome self c :: outcomes history (step self c)
  end.

(** Two buckets are alike when they are equal or both blank, two
    reservoirs when they are of the same class with the same size, counter
    or boundaries, and buckets alike one by one. *)
Definition alike (b1 b2 : ExemplarBucket) : Prop :=
  b1 = b2 ∨ blank b1 ∧ blank b2.

Definition alike_reservoirs (self1 self2 : ExemplarReservoir) : Prop :=
  Forall2 alike (_reservoir_storage (base_of self1))
    (_reservoir_storage (base_of self2)) ∧
  _size (base_of self1) = _size (base_of self2) ∧
  match self1, self2 with
  | Simple r1, Simple r2 => _measurements_seen r1 = _measurements_seen r2
  | Aligned r1, Aligned r2 => _boundaries r1 = _boundaries r2
  | _, _ => False
  end.

(** The reservoir is as a constructor returned it. *)
Definition constructed (self : ExemplarReservoir) : Prop :=
  match self with
  | Simple r =>
      ∃ size kwargs, SimpleFixedSizeExemplarReservoir_init size kwargs = Ok r
  | Aligned r =>
      ∃ boundaries kwargs,
        AlignedHistogramBucketExemplarReservoir_init boundaries kwargs = Ok r
  end.

End Notions.

(** ** Concrete collaborators

    Integers as numbers and attribute values; a context holds its current
    span, if any; [INVALID_SPAN] is the span without a context. *)

Global Instance SpanContext_eq_dec : EqDecision SpanContext.
Proof. solve_decision. Defined.

Definition int_collaborators : Collaborators := {|
  Number := Z;
  Number_zero := 0;
  Number_le := Z.leb;
  AttributeValue := Z;
  Context := option SpanContext;
  Span := option SpanContext;
  INVALID_SPAN := None;
  get_current_span ctx := ctx;
  get_span_context span := default (mkSpanContext 0 0) span;
|}.


Section Examples.
Existing Instance int_collaborators.

Definition no_span : Context := None.

Definition in_span (span trace : Z) : Context :=
  Some (mkSpanContext span trace).

(** The measurement of value [v], taken at time [v], without attributes
    and outside any span. *)
Definition sample (v : Z) : Measurement := mkMeasurement v v None no_span.

(** The same measurement with the attribute [key] set to [v]. *)
Definition sample_with (key : string) (v : Z) : Measurement :=
  mkMeasurement v v (Some {[ key := v ]}) no_span.

(** What the constructors return for size [size] and for the boundaries
    [10, 20]. *)
Definition simple_of_size (size : Z) : SimpleFixedSizeExemplarReservoir :=
  {| Simple_super :=
       {| _size := size;
          _reservoir_storage :=
            replicate (Z.to_nat size) ExemplarBucket_init |};
     _measurements_seen := 0 |}.

Definition aligned_10_20 : AlignedHistogramBucketExemplarReservoir :=
  {| Aligned_super :=
       {| _size := 3;
          _reservoir_storage := replicate 3 ExemplarBucket_init |};
     _boundaries := [10; 20] |}.

Definition index_10_20 (v : Z) : Z :=
  AlignedHistogramBucketExemplarReservoir_find_bucket_index
    v v None no_span aligned_10_20.

End Examples.

(** * Properties *)

Section Properties.
Context `{Collaborators}.

Implicit Types (b bucket : ExemplarBucket) (storage : list ExemplarBucket).
Implicit Types (pa point_attributes attributes : Attributes).
Implicit Types (p : gmap string AttributeValue).

(** ** Buckets *)

Lemma filtered_attributes_mapping attributes p :
  filtered_attributes attributes (Some p) =
    Ok (match attributes with
        | None => None
        | Some m =>
            if bool_decide (m ≠ ∅)
            then Some (filter (λ kv : string * AttributeValue,
                                 p !! kv.1 = None) m)
            else None
        end).
Proof.
  destruct attributes as [m|]; simpl; [|done].
  by case_bool_decide.
Qed.

Lemma filtered_attributes_spec attributes pa fa :
  filtered_attributes attributes pa = Ok fa →
  attributes_map fa =
    filter (λ kv : string * AttributeValue, attributes_map pa !! kv.1 = None)
      (attributes_map attributes).
Proof.
  destruct attributes as [m|]; simpl.
  - case_bool_decide as Hm.
    + destruct pa as [p|]; simpl.
      * by intros [= <-].
      * case_bool_decide; [congruence | done].
    + intros [= <-]. simpl.
      assert (m = ∅) as -> by (destruct (decide (m = ∅)); [done | tauto]).
      by rewrite map_filter_empty.
  - intros [= <-]. simpl. by rewrite map_filter_empty.
Qed.

Lemma ExemplarBucket_collect_not_offered pa b :
  __offered b = false → ExemplarBucket_collect pa b = (Ok None, b).
Proof. unfold ExemplarBucket_collect. by intros ->. Qed.

Lemma ExemplarBucket_collect_Ok pa b e b' :
  ExemplarBucket_collect pa b = (Ok e, b') →
  __offered b' = false ∧
  (__offered b = false ∧ e = None ∧ b' = b ∨
   __offered b = true ∧ b' = ExemplarBucket_reset b ∧
   ∃ fa, filtered_attributes (__attributes b) pa = Ok fa ∧
         e = Some (mkExemplar fa (__value b) (__time_unix_nano b)
                     (__span_id b) (__trace_id b))).
Proof.
  unfold ExemplarBucket_collect.
  destruct (__offered b) eqn:Hoff; simpl.
  - destruct (filtered_attributes _ _) as [fa|err] eqn:Hfa; [|done].
    intros [= <- <-]. split; [done|]. right. eauto.
  - intros [= <- <-]. split; [done|]. by left.
Qed.

Lemma ExemplarBucket_collect_Raise pa b err b' :
  ExemplarBucket_collect pa b = (Raise err, b') →
  b' = b ∧ __offered b = true ∧ pa = None ∧ err = TypeError.
Proof.
  unfold ExemplarBucket_collect.
  destruct (__offered b) eqn:Hoff; simpl; [|done].
  destruct (filtered_attributes _ _) as [fa|err'] eqn:Hfa; [done|].
  intros [= <- <-].
  destruct pa as [p|]; [by rewrite filtered_attributes_mapping in Hfa|].
  unfold filtered_attributes, comprehension in Hfa.
  destruct (__attributes b); [|done].
  repeat case_bool_decide; naive_solver.
Qed.

Lemma ExemplarBucket_collect_mapping p b :
  ∃ e b', ExemplarBucket_collect (Some p) b = (Ok e, b').
Proof.
  unfold ExemplarBucket_collect.
  destruct (negb _); [by eauto|].
  rewrite filtered_attributes_mapping. eauto.
Qed.

(** ** The bucket list *)

Lemma collect_buckets_length pa storage :
  length (collect_buckets pa storage).2 = length storage.
Proof.
  induction storage as [|b rest IH]; simpl; [done|].
  destruct (ExemplarBucket_collect pa b) as [[e|err] b']; simpl; [|done].
  destruct (collect_buckets pa rest) as [[l|err] rest']; simpl in *; lia.
Qed.

Lemma collect_buckets_Ok pa storage l storage' :
  collect_buckets pa storage = (Ok l, storage') →
  Forall (λ b, __offered b = false) storage' ∧
  Forall2 (exemplar_of pa) (filter (λ b, __offered b = true) storage) l.
Proof.
  revert l storage'.
  induction storage as [|b rest IH]; intros l storage'; simpl.
  { intros [= <- <-]. split; constructor. }
  destruct (ExemplarBucket_collect pa b) as [[e|err] b'] eqn:Hb; [|done].
  destruct (collect_buckets pa rest) as [[l'|err] rest'] eqn:Hrest; [|done].
  intros [= <- <-].
  destruct (IH _ _ eq_refl) as [IH1 IH2].
  apply ExemplarBucket_collect_Ok in Hb as [Hoff Hb].
  split; [by constructor|].
  destruct Hb as [(Hb & -> & ->)|(Hb & -> & fa & Hfa & ->)].
  - rewrite filter_cons_False; [done | congruence].
  - rewrite filter_cons_True by done.
    constructor; [|done].
    split; [|done]. simpl. by apply filtered_attributes_spec.
Qed.

Lemma collect_buckets_vacant pa storage :
  Forall (λ b, __offered b = false) storage →
  collect_buckets pa storage = (Ok [], storage).
Proof.
  induction 1 as [|b rest Hb _ IH]; simpl; [done|].
  by rewrite ExemplarBucket_collect_not_offered, IH.
Qed.

Lemma collect_buckets_mapping p storage :
  ∃ l storage', collect_buckets (Some p) storage = (Ok l, storage').
Proof.
  induction storage as [|b rest (l & rest' & IH)]; simpl; [by eauto|].
  destruct (ExemplarBucket_collect_mapping p b) as (e & b' & ->).
  rewrite IH. eauto.
Qed.

Lemma collect_buckets_Raise pa storage err storage' :
  collect_buckets pa storage = (Raise err, storage') →
  pa = None ∧ err = TypeError.
Proof.
  revert storage'.
  induction storage as [|b rest IH]; intros storage'; simpl; [done|].
  destruct (ExemplarBucket_collect pa b) as [[e|err'] b'] eqn:Hb.
  - destruct (collect_buckets pa rest) as [[l'|err'] rest'] eqn:Hrest; [done|].
    intros [= <- <-]. by eapply IH.
  - intros [= <- <-].
    by apply ExemplarBucket_collect_Raise in Hb as (_ & _ & -> & ->).
Qed.

Lemma exemplars_at_most_offered pa storage l :
  Forall2 (exemplar_of pa) (filter (λ b, __offered b = true) storage) l →
  (length l ≤ length storage)%nat.
Proof.
  intros Hl. rewrite <-(Forall2_length _ _ _ Hl). apply length_filter.
Qed.

Lemma collect_buckets_blank pa storage :
  Forall (λ b, __offered b = false → blank b) storage →
  Forall (λ b, __offered b = false → blank b) (collect_buckets pa storage).2.
Proof.
  induction 1 as [|b rest Hb Hrest IH]; simpl; [done|].
  destruct (ExemplarBucket_collect pa b) as [[e|err] b'] eqn:Hcb.
  - apply ExemplarBucket_collect_Ok in Hcb as [_ Hcb].
    assert (__offered b' = false → blank b') as Hb'.
    { destruct Hcb as [(_ & _ & ->)|(_ & -> & _)]; [done|]. by right. }
    destruct (collect_buckets pa rest) as [[l|err] rest'];
      simpl in *; by constructor.
  - apply ExemplarBucket_collect_Raise in Hcb as (-> & _).
    simpl. by constructor.
Qed.

(** ** Reservoirs *)

Lemma list_index_Ok {A : Type} (l : list A) (i : Z) (n : nat) :
  list_index l i = Ok n → (n < length l)%nat.
Proof.
  unfold list_index.
  destruct (_ && _) eqn:Hin; [|done].
  intros [= <-]. apply andb_true_iff in Hin as [H1 H2]. lia.
Qed.

Lemma list_index_in_range {A : Type} (l : list A) (i : Z) :
  0 ≤ i < Z.of_nat (length l) → list_index l i = Ok (Z.to_nat i).
Proof.
  intros Hi. unfold list_index.
  destruct (i <? 0) eqn:Hneg; [lia|].
  destruct (_ && _) eqn:Hin; [done|].
  apply andb_false_iff in Hin as [Hin|Hin]; lia.
Qed.

Lemma collect_result pa self :
  (collect pa self).1 =
    (collect_buckets pa (_reservoir_storage (base_of self))).1.
Proof.
  destruct self as [r|r]; simpl;
    unfold SimpleFixedSizeExemplarReservoir_collect,
      AlignedHistogramBucketExemplarReservoir_collect,
      FixedSizeExemplarReservoirABC_collect; simpl;
    by destruct (collect_buckets _ _).
Qed.

Lemma collect_state pa self :
  _reservoir_storage (base_of (collect pa self).2) =
    (collect_buckets pa (_reservoir_storage (base_of self))).2 ∧
  _size (base_of (collect pa self).2) = _size (base_of self) ∧
  match self with
  | Simple r =>
      ∃ r', (collect pa self).2 = Simple r' ∧ _measurements_seen r' = 0
  | Aligned r =>
      ∃ r', (collect pa self).2 = Aligned r' ∧ _boundaries r' = _boundaries r
  end.
Proof.
  destruct self as [r|r]; simpl;
    unfold SimpleFixedSizeExemplarReservoir_collect,
      AlignedHistogramBucketExemplarReservoir_collect,
      FixedSizeExemplarReservoirABC_collect; simpl;
    destruct (collect_buckets _ _); simpl; eauto.
Qed.

(** What one [offer] can do to a reservoir: nothing, or one bucket
    written.  The counter moves on the draw branch only. *)
Lemma offer_state draw value time_unix_nano attributes ctx self :
  let self' := (offer draw value time_unix_nano attributes ctx self).2 in
  _size (base_of self') = _size (base_of self) ∧
  (_reservoir_storage (base_of self') = _reservoir_storage (base_of self) ∨
   ∃ i, (i < length (_reservoir_storage (base_of self)))%nat ∧
        _reservoir_storage (base_of self') =
          alter (ExemplarBucket_offer value time_unix_nano attributes ctx) i
            (_reservoir_storage (base_of self))) ∧
  match self with
  | Simple r =>
      ∃ r', self' = Simple r' ∧
        (_measurements_seen r' = _measurements_seen r ∨
         _size (Simple_super r) ≤ _measurements_seen r ∧
         0 < _measurements_seen r ∧
         _measurements_seen r' = _measurements_seen r + 1)
  | Aligned r => ∃ r', self' = Aligned r' ∧ _boundaries r' = _boundaries r
  end.
Proof.
  destruct self as [r|r]; simpl.
  - unfold SimpleFixedSizeExemplarReservoir_offer, mbind, M_bind,
      SimpleFixedSizeExemplarReservoir_find_bucket_index, randrange,
      storage_offer, mret, M_ret.
    destruct (_measurements_seen r <? _size (Simple_super r)) eqn:Hfill.
    + case_bool_decide; simpl; [|split_and!; by eauto 10].
      destruct (list_index _ _) as [i|err] eqn:Hi; simpl;
        [|split_and!; by eauto 10].
      apply list_index_Ok in Hi. split_and!; eauto 10.
    + destruct (0 <? _measurements_seen r) eqn:Hpos; simpl;
        [|split_and!; by eauto 10].
      assert (_size (Simple_super r) ≤ _measurements_seen r) by lia.
      assert (0 < _measurements_seen r) by lia.
      case_bool_decide; simpl; [|split_and!; by eauto 10].
      destruct (list_index _ _) as [i|err] eqn:Hi; simpl;
        [|split_and!; by eauto 10].
      apply list_index_Ok in Hi. split_and!; eauto 10.
  - unfold AlignedHistogramBucketExemplarReservoir_offer, mbind, M_bind,
      gets, storage_offer.
    destruct (list_index _ _) as [i|err] eqn:Hi; simpl;
      [|split_and!; by eauto 10].
    apply list_index_Ok in Hi. split_and!; eauto 10.
Qed.

Lemma init_invariant_Simple size kwargs r :
  SimpleFixedSizeExemplarReservoir_init size kwargs = Ok r →
  invariant (Simple r).
Proof.
  unfold SimpleFixedSizeExemplarReservoir_init,
    FixedSizeExemplarReservoirABC_init.
  destruct (object_init kwargs); [|done].
  intros [= <-]. unfold invariant; simpl.
  rewrite length_replicate. split_and!; [done| |done].
  apply Forall_replicate. by left.
Qed.

Lemma init_invariant_Aligned boundaries kwargs r :
  AlignedHistogramBucketExemplarReservoir_init boundaries kwargs = Ok r →
  invariant (Aligned r).
Proof.
  unfold AlignedHistogramBucketExemplarReservoir_init,
    FixedSizeExemplarReservoirABC_init.
  destruct (object_init kwargs); [|done].
  intros [= <-]. unfold invariant; simpl.
  rewrite length_replicate. split_and!; [done| |done].
  apply Forall_replicate. by left.
Qed.

Lemma offer_invariant draw value time_unix_nano attributes ctx self :
  invariant self →
  invariant (offer draw value time_unix_nano attributes ctx self).2.
Proof.
  intros (Hlen & Hblank & Hkind).
  pose proof (offer_state draw value time_unix_nano attributes ctx self)
    as (Hsize & Hst & Hk).
  cbv zeta in Hsize, Hst, Hk.
  assert (Forall (λ b, __offered b = false → blank b)
            (_reservoir_storage (base_of
               (offer draw value time_unix_nano attributes ctx self).2)))
    as Hblank'.
  { destruct Hst as [->|(i & _ & ->)]; [done|].
    apply Forall_alter; [done|].
    intros b _ _. unfold ExemplarBucket_offer.
    by case_bool_decide. }
  assert (length (_reservoir_storage (base_of
            (offer draw value time_unix_nano attributes ctx self).2)) =
          length (_reservoir_storage (base_of self))) as Hlen'.
  { destruct Hst as [->|(i & _ & ->)]; [done|]. by rewrite length_alter. }
  destruct self as [r|r]; destruct Hk as (r' & Heq & Hk);
    rewrite Heq in Hsize, Hblank', Hlen' |- *;
    unfold invariant; simpl in *; split_and!; try done; try lia.
  rewrite Hk. lia.
Qed.

Lemma collect_invariant pa self :
  invariant self → invariant (collect pa self).2.
Proof.
  intros (Hlen & Hblank & Hkind).
  pose proof (collect_state pa self) as (Hst & Hsize & Hk).
  pose proof (collect_buckets_blank pa _ Hblank) as Hblank'.
  pose proof (collect_buckets_length pa (_reservoir_storage (base_of self)))
    as Hlen'.
  rewrite <-Hst in Hblank', Hlen'.
  destruct self as [r|r]; destruct Hk as (r' & Heq & Hk);
    rewrite Heq in Hsize, Hblank', Hlen' |- *;
    unfold invariant; simpl in *; split_and!; try done; try lia.
  rewrite Hk. lia.
Qed.

Lemma reachable_invariant self : reachable self → invariant self.
Proof.
  induction 1 as [size kwargs r Hr|boundaries kwargs r Hr| |].
  - by eapply init_invariant_Simple.
  - by eapply init_invariant_Aligned.
  - by apply offer_invariant.
  - by apply collect_invariant.
Qed.

Lemma collect_Ok pa self l :
  (collect pa self).1 = Ok l →
  ∃ storage',
    collect_buckets pa (_reservoir_storage (base_of self)) = (Ok l, storage') ∧
    _reservoir_storage (base_of (collect pa self).2) = storage'.
Proof.
  rewrite collect_result. intros Hl.
  destruct (collect_state pa self) as (Hst & _).
  destruct (collect_buckets _ _) as [res storage'] eqn:Hcb.
  simpl in *. subst. eauto.
Qed.

Lemma not_raises_Ok {A : Type} (res : result A) :
  raises res = false → ∃ a, res = Ok a.
Proof. destruct res; [by eauto | done]. Qed.

(** With a mapping for [point_attributes], [collect] returns. *)
Lemma collect_mapping_returns self p :
  ∃ l, (collect (Some p) self).1 = Ok l.
Proof.
  rewrite collect_result.
  destruct (collect_buckets_mapping p (_reservoir_storage (base_of self)))
    as (l & storage' & ->).
  eauto.
Qed.

(** When [collect] raises, it is the [TypeError] of [in] on the absent
    [point_attributes]. *)
Lemma collect_raises_only_on_None self pa err :
  (collect pa self).1 = Raise err → pa = None ∧ err = TypeError.
Proof.
  rewrite collect_result.
  destruct (collect_buckets _ _) as [res storage'] eqn:Hcb.
  simpl. intros ->. by eapply collect_buckets_Raise.
Qed.

(** C6: every exemplar returned by [collect(point_attributes)] comes from
    one bucket that held a sample, bucket by bucket in index order, and its
    filtered attributes are that bucket's attributes with the keys of
    [point_attributes] removed; so none of its keys is a key of
    [point_attributes]. *)
Theorem collect_filters_point_attributes self pa l :
  (collect pa self).1 = Ok l →
  Forall2 (exemplar_of pa)
    (filter (λ b, __offered b = true) (_reservoir_storage (base_of self))) l ∧
  Forall (λ e, ∀ k,
            is_Some (attributes_map (ex_filtered_attributes e) !! k) →
            attributes_map pa !! k = None) l.
Proof.
  intros Hl.
  apply collect_Ok in Hl as (storage' & Hcb & _).
  apply collect_buckets_Ok in Hcb as [_ Hex].
  split; [done|].
  eapply Forall2_Forall_r; [exact Hex|].
  apply Forall_forall. intros b _ e (Hattrs & _) k [v Hv].
  rewrite Hattrs in Hv.
  by apply map_lookup_filter_Some in Hv as [_ Hk].
Qed.

(** C7: when a [collect] has returned, every bucket is without a sample,
    and the next [collect], whatever its [point_attributes], returns the
    empty list. *)
Theorem collect_twice_empty self pa1 pa2 :
  raises (collect pa1 self).1 = false →
  (collect pa2 (collect pa1 self).2).1 = Ok [] ∧
  Forall (λ b, __offered b = false)
    (_reservoir_storage (base_of (collect pa1 self).2)).
Proof.
  intros Hret. apply not_raises_Ok in Hret as [l Hl].
  apply collect_Ok in Hl as (storage' & Hcb & Hst).
  apply collect_buckets_Ok in Hcb as [Hvacant _].
  rewrite collect_result, Hst.
  by rewrite collect_buckets_vacant.
Qed.

(** C8: in a reachable state, a [collect] that returns gives at most as
    many exemplars as the reservoir has buckets, which is its size (no
    bucket for a size below 0), and after it every bucket is blank; and
    after a [collect] the counter of the uniform reservoir is 0, in any
    state and whatever the counter was before. *)
Theorem collect_bounded_and_resets self pa :
  (reachable self →
   raises (collect pa self).1 = false →
   ∃ l, (collect pa self).1 = Ok l ∧
     Z.of_nat (length l) ≤ Z.max 0 (maxSize (base_of self)) ∧
     Forall (λ b, __offered b = false ∧ blank b)
       (_reservoir_storage (base_of (collect pa self).2))) ∧
  counter_reset (collect pa self).2.
Proof.
  split.
  - intros Hreach Hret.
    pose proof (reachable_invariant _ Hreach) as (Hlen & _ & _).
    pose proof (reachable_invariant _ (reachable_collect pa _ Hreach))
      as (_ & Hblank & _).
    apply not_raises_Ok in Hret as [l Hl]. exists l. split; [done|].
    apply collect_Ok in Hl as (storage' & Hcb & Hst).
    apply collect_buckets_Ok in Hcb as [Hvacant Hex].
    apply exemplars_at_most_offered in Hex.
    split.
    + unfold maxSize. lia.
    + rewrite Hst in Hblank |- *.
      apply Forall_and. split; [done|].
      rewrite Forall_forall in Hvacant, Hblank |- *. auto.
  - destruct (collect_state pa self) as (_ & _ & Hkind).
    destruct self as [r|r]; destruct Hkind as (r' & -> & Hr'); by simpl.
Qed.

Lemma reachable_run history self :
  reachable self → reachable (run history self).
Proof.
  unfold run. revert self.
  induction history as [|c history IH]; intros self Hself; simpl; [done|].
  apply IH. destruct c; simpl; by constructor.
Qed.

(** ** The histogram-aligned reservoir *)

Lemma scan_boundaries_selects value k boundaries :
  ∃ n : nat,
    default (k + Z.of_nat (length boundaries))
      (scan_boundaries value k boundaries) = k + Z.of_nat n ∧
    (n ≤ length boundaries)%nat ∧
    selects value boundaries n.
Proof.
  revert k.
  induction boundaries as [|boundary rest IH]; intros k; simpl.
  { exists 0%nat. split_and!; [lia | done |]. split; [|done]. intros; lia. }
  destruct (Number_le value boundary) eqn:Hle.
  - exists 0%nat. simpl. split_and!; [lia | lia |].
    split; [intros; lia | done].
  - destruct (IH (k + 1)) as (n & Hn & Hlen & Hless & Hat).
    exists (S n). split_and!; [|lia|].
    + replace (k + Z.of_nat (S (length rest)))
        with (k + 1 + Z.of_nat (length rest)) by lia.
      rewrite Hn. lia.
    + split.
      * intros [|j] boundary' Hj; simpl; [by intros [= <-]|].
        apply Hless. lia.
      * simpl. destruct (rest !! n); [done | by f_equal].
Qed.

Lemma find_bucket_index_selects value time_unix_nano attributes ctx
    (r : AlignedHistogramBucketExemplarReservoir) :
  ∃ n : nat,
    AlignedHistogramBucketExemplarReservoir_find_bucket_index
      value time_unix_nano attributes ctx r = Z.of_nat n ∧
    (n ≤ length (_boundaries r))%nat ∧
    selects value (_boundaries r) n.
Proof.
  destruct (scan_boundaries_selects value 0 (_boundaries r))
    as (n & Hn & Hlen & Hsel).
  exists n. split_and!; [|done..].
  unfold AlignedHistogramBucketExemplarReservoir_find_bucket_index.
  destruct (scan_boundaries _ _ _); simpl in Hn; lia.
Qed.

(** An [offer] to a reachable histogram-aligned reservoir returns and
    writes the bucket at the index found. *)
Lemma Aligned_offer_writes value time_unix_nano attributes ctx r (n : nat) :
  reachable (Aligned r) →
  AlignedHistogramBucketExemplarReservoir_find_bucket_index
    value time_unix_nano attributes ctx r = Z.of_nat n →
  (n < length (_reservoir_storage (Aligned_super r)))%nat ∧
  AlignedHistogramBucketExemplarReservoir_offer
    value time_unix_nano attributes ctx r =
  (Ok (),
   {| Aligned_super :=
        {| _size := _size (Aligned_super r);
           _reservoir_storage :=
             alter (ExemplarBucket_offer value time_unix_nano attributes ctx)
               n (_reservoir_storage (Aligned_super r)) |};
      _boundaries := _boundaries r |}).
Proof.
  intros Hreach Hn.
  apply reachable_invariant in Hreach as (Hlen & _ & Hsize). simpl in *.
  destruct (find_bucket_index_selects value time_unix_nano attributes ctx r)
    as (n' & Hn' & Hle & _).
  assert (n' = n) as -> by lia.
  split; [lia|].
  unfold AlignedHistogramBucketExemplarReservoir_offer, mbind, M_bind, gets,
    storage_offer.
  rewrite Hn. simpl.
  rewrite list_index_in_range by lia.
  by rewrite Nat2Z.id.
Qed.

Lemma run_Aligned history (r0 : AlignedHistogramBucketExemplarReservoir) :
  ∃ r, run history (Aligned r0) = Aligned r ∧ _boundaries r = _boundaries r0.
Proof.
  unfold run. revert r0.
  induction history as [|c history IH]; intros r0; simpl; [by eauto|].
  assert (∃ r1, step (Aligned r0) c = Aligned r1
                ∧ _boundaries r1 = _boundaries r0) as (r1 & -> & <-).
  { destruct c as [draw m|pa]; simpl.
    - by destruct (offer_state draw (m_value m) (m_time_unix_nano m)
                     (m_attributes m) (m_ctx m) (Aligned r0)) as (_ & _ & ?).
    - by destruct (collect_state pa (Aligned r0)) as (_ & _ & ?). }
  apply IH.
Qed.

(** C10: on a reachable histogram-aligned reservoir the index found lies
    between 0 and the number of boundaries, there is one bucket more than
    boundaries, and [offer] returns having written the bucket at that index
    and no other. *)
Theorem Aligned_offer_in_bounds value time_unix_nano attributes ctx
    (r : AlignedHistogramBucketExemplarReservoir) :
  reachable (Aligned r) →
  let index :=
    AlignedHistogramBucketExemplarReservoir_find_bucket_index
      value time_unix_nano attributes ctx r in
  0 ≤ index ≤ Z.of_nat (length (_boundaries r)) ∧
  length (_reservoir_storage (Aligned_super r)) =
    S (length (_boundaries r)) ∧
  ∃ r' bucket,
    AlignedHistogramBucketExemplarReservoir_offer
      value time_unix_nano attributes ctx r = (Ok (), r') ∧
    length (_reservoir_storage (Aligned_super r')) =
      length (_reservoir_storage (Aligned_super r)) ∧
    _reservoir_storage (Aligned_super r) !! Z.to_nat index = Some bucket ∧
    _reservoir_storage (Aligned_super r') !! Z.to_nat index =
      Some (ExemplarBucket_offer value time_unix_nano attributes ctx bucket) ∧
    ∀ j, j ≠ Z.to_nat index →
      _reservoir_storage (Aligned_super r') !! j =
        _reservoir_storage (Aligned_super r) !! j.
Proof.
  intros Hreach index.
  destruct (find_bucket_index_selects value time_unix_nano attributes ctx r)
    as (n & Hn & Hle & _).
  destruct (Aligned_offer_writes value time_unix_nano attributes ctx r n
              Hreach Hn) as [Hlt ->].
  apply reachable_invariant in Hreach as (Hlen & _ & Hsize). simpl in *.
  subst index. rewrite Hn, Nat2Z.id.
  split; [lia|]. split; [lia|].
  destruct (lookup_lt_is_Some_2 _ _ Hlt) as [bucket Hbucket].
  eexists _, bucket. split; [done|]. simpl. split_and!.
  - by rewrite length_alter.
  - done.
  - by rewrite list_lookup_alter_eq, Hbucket.
  - intros j Hj. by rewrite list_lookup_alter_ne.
Qed.

(** ** Buckets and spans *)

(** Outside a span, [offer] keeps the span and trace ids the bucket has. *)
Lemma ExemplarBucket_offer_no_span value time_unix_nano attributes ctx b :
  get_current_span ctx = INVALID_SPAN →
  __span_id (ExemplarBucket_offer value time_unix_nano attributes ctx b) =
    __span_id b ∧
  __trace_id (ExemplarBucket_offer value time_unix_nano attributes ctx b) =
    __trace_id b.
Proof.
  intros Hspan. unfold ExemplarBucket_offer. rewrite Hspan.
  by rewrite bool_decide_eq_false_2 by (intros Hne; by apply Hne).
Qed.

(** The sample of a bucket after [offer] is the one offered, whatever the
    bucket held. *)
Lemma ExemplarBucket_offer_sample value time_unix_nano attributes ctx b :
  let b' := ExemplarBucket_offer value time_unix_nano attributes ctx b in
  __value b' = value ∧ __time_unix_nano b' = time_unix_nano ∧
  __attributes b' = attributes ∧ __offered b' = true.
Proof. unfold ExemplarBucket_offer. by case_bool_decide. Qed.

(** ** The uniform reservoir *)

(** The fill branch returns the counter as the index and leaves it as it
    is. *)
Lemma Simple_find_bucket_index_fill draw value time_unix_nano attributes ctx
    (r : SimpleFixedSizeExemplarReservoir) :
  _measurements_seen r < _size (Simple_super r) →
  SimpleFixedSizeExemplarReservoir_find_bucket_index
    draw value time_unix_nano attributes ctx r = (Ok (_measurements_seen r), r).
Proof.
  intros Hfill. unfold SimpleFixedSizeExemplarReservoir_find_bucket_index.
  by rewrite (proj2 (Z.ltb_lt _ _) Hfill).
Qed.

(** The draw branch adds one to the counter. *)
Lemma Simple_find_bucket_index_draw draw value time_unix_nano attributes ctx
    (r : SimpleFixedSizeExemplarReservoir) :
  _size (Simple_super r) ≤ _measurements_seen r →
  0 < _measurements_seen r →
  _measurements_seen
    (SimpleFixedSizeExemplarReservoir_find_bucket_index
       draw value time_unix_nano attributes ctx r).2 =
  _measurements_seen r + 1.
Proof.
  intros Hfull Hpos.
  unfold SimpleFixedSizeExemplarReservoir_find_bucket_index, randrange.
  rewrite (proj2 (Z.ltb_ge _ _) Hfull), (proj2 (Z.ltb_lt _ _) Hpos).
  done.
Qed.

(** In every reachable state the counter is 0: the fill branch never moves
    it, and the draw branch is entered with an empty range only. *)
Lemma reachable_Simple_counter (r : SimpleFixedSizeExemplarReservoir) :
  reachable (Simple r) → _measurements_seen r = 0.
Proof. intros Hreach. by apply reachable_invariant in Hreach as (_ & _ & ?). Qed.

(** On a reachable uniform reservoir with a bucket, every [offer] writes
    bucket 0. *)
Lemma Simple_offer_writes_first draw value time_unix_nano attributes ctx
    (r : SimpleFixedSizeExemplarReservoir) :
  reachable (Simple r) →
  1 ≤ _size (Simple_super r) →
  SimpleFixedSizeExemplarReservoir_offer
    draw value time_unix_nano attributes ctx r =
  (Ok (),
   {| Simple_super :=
        {| _size := _size (Simple_super r);
           _reservoir_storage :=
             alter (ExemplarBucket_offer value time_unix_nano attributes ctx)
               0%nat (_reservoir_storage (Simple_super r)) |};
      _measurements_seen := _measurements_seen r |}).
Proof.
  intros Hreach Hsize.
  apply reachable_invariant in Hreach as (Hlen & _ & Hseen). simpl in *.
  unfold SimpleFixedSizeExemplarReservoir_offer, mbind, M_bind.
  rewrite Simple_find_bucket_index_fill by lia.
  rewrite Hseen. rewrite bool_decide_eq_true_2 by done.
  unfold storage_offer. simpl.
  rewrite list_index_in_range by lia.
  simpl. by rewrite Hseen.
Qed.

(** On a reachable uniform reservoir without a bucket, every [offer]
    raises the [ValueError] of [randrange(0, 0)]. *)
Lemma Simple_offer_no_bucket draw value time_unix_nano attributes ctx
    (r : SimpleFixedSizeExemplarReservoir) :
  reachable (Simple r) →
  _size (Simple_super r) ≤ 0 →
  SimpleFixedSizeExemplarReservoir_offer
    draw value time_unix_nano attributes ctx r = (Raise ValueError, r).
Proof.
  intros Hreach Hsize.
  apply reachable_invariant in Hreach as (_ & _ & Hseen). simpl in *.
  unfold SimpleFixedSizeExemplarReservoir_offer, mbind, M_bind,
    SimpleFixedSizeExemplarReservoir_find_bucket_index, randrange.
  rewrite Hseen. by rewrite (proj2 (Z.ltb_ge _ _) Hsize).
Qed.

(** Offers alone never get past bucket 0: after them the first bucket
    holds a sample and the buckets behind it are as they were. *)
Lemma Simple_offers_first_bucket (ms : list (Z * Measurement))
    (r : SimpleFixedSizeExemplarReservoir) b rest :
  reachable (Simple r) →
  1 ≤ _size (Simple_super r) →
  _reservoir_storage (Simple_super r) = b :: rest →
  ms ≠ [] ∨ __offered b = true →
  ∃ r' b',
    run (uncurry Offer <$> ms) (Simple r) = Simple r' ∧
    _reservoir_storage (Simple_super r') = b' :: rest ∧
    __offered b' = true.
Proof.
  revert r b.
  induction ms as [|[draw m] ms IH]; intros r b Hreach Hsize Hst Hoff.
  { destruct Hoff as [?|Hoff]; [done|]. exists r, b. by simpl. }
  pose proof (Simple_offer_writes_first draw (m_value m) (m_time_unix_nano m)
                (m_attributes m) (m_ctx m) r Hreach Hsize) as Hoffer.
  pose proof (reachable_offer draw (m_value m) (m_time_unix_nano m)
                (m_attributes m) (m_ctx m) _ Hreach) as Hreach'.
  simpl in Hreach' |- *. unfold run; simpl.
  rewrite Hoffer in Hreach' |- *. simpl in Hreach' |- *.
  eapply IH; [exact Hreach' | done | by rewrite Hst |].
  right. apply ExemplarBucket_offer_sample.
Qed.

(** So, however many measurements a uniform reservoir with room for them
    is offered after a reset, [collect] returns one exemplar. *)
Lemma Simple_offers_one_exemplar (ms : list (Z * Measurement))
    (r : SimpleFixedSizeExemplarReservoir) p :
  reachable (Simple r) →
  1 ≤ _size (Simple_super r) →
  Forall (λ b, __offered b = false) (_reservoir_storage (Simple_super r)) →
  ms ≠ [] →
  ∃ e, (collect (Some p) (run (uncurry Offer <$> ms) (Simple r))).1 = Ok [e].
Proof.
  intros Hreach Hsize Hvacant Hms.
  pose proof (reachable_invariant _ Hreach) as (Hlen & _ & _). simpl in Hlen.
  destruct (_reservoir_storage (Simple_super r)) as [|b rest] eqn:Hst;
    [simpl in Hlen; lia|].
  apply Forall_cons in Hvacant as [_ Hrest].
  destruct (Simple_offers_first_bucket ms r b rest Hreach Hsize Hst)
    as (r' & b' & -> & Hst' & Hoff); [by left|].
  rewrite collect_result. simpl. rewrite Hst'. simpl.
  unfold ExemplarBucket_collect. rewrite Hoff. simpl.
  rewrite filtered_attributes_mapping.
  rewrite collect_buckets_vacant by done. simpl. eauto.
Qed.

(** ** Construction *)

(** C3, as the code has it: a size of 0 or less is accepted.  Without
    stray keyword arguments the constructor returns a reservoir with no
    bucket whose [maxSize()] is the size given; on the uniform reservoir so
    built every [offer] raises [ValueError] and [collect] returns no
    exemplar. *)
Theorem nonpositive_size_accepted (size : Z) :
  size ≤ 0 →
  ∃ r : SimpleFixedSizeExemplarReservoir,
    SimpleFixedSizeExemplarReservoir_init size [] = Ok r ∧
    FixedSizeExemplarReservoirABC_init size [] = Ok (Simple_super r) ∧
    maxSize (Simple_super r) = size ∧
    _reservoir_storage (Simple_super r) = [] ∧
    (∀ draw value time_unix_nano attributes ctx,
       SimpleFixedSizeExemplarReservoir_offer
         draw value time_unix_nano attributes ctx r = (Raise ValueError, r)) ∧
    (∀ pa, SimpleFixedSizeExemplarReservoir_collect pa r = (Ok [], r)).
Proof.
  intros Hsize.
  assert (Z.to_nat size = 0%nat) as Hnat by lia.
  assert (SimpleFixedSizeExemplarReservoir_init size [] =
          Ok (mkSimple (mkFixedSize size []) 0)) as Hinit.
  { unfold SimpleFixedSizeExemplarReservoir_init,
      FixedSizeExemplarReservoirABC_init. simpl. by rewrite Hnat. }
  eexists. split; [exact Hinit|]. simpl.
  split_and!; try done.
  - unfold FixedSizeExemplarReservoirABC_init. simpl. by rewrite Hnat.
  - intros draw value time_unix_nano attributes ctx.
    apply Simple_offer_no_bucket; [|done].
    by apply (reachable_Simple size []).
Qed.

End Properties.

(** * The claims on concrete reservoirs *)

Section Concrete.
Existing Instance int_collaborators.

Lemma Aligned_init_10_20 :
  AlignedHistogramBucketExemplarReservoir_init [10; 20] [] = Ok aligned_10_20.
Proof. reflexivity. Qed.

(** C5: in every state a histogram-aligned reservoir built from
    [boundaries] can reach, the index found for [value] is the least
    position whose boundary is at least [value], or the number of
    boundaries when there is none, and [offer] returns having put the
    measurement in the bucket at that index.  With boundaries [10, 20]:
    5 goes to bucket 0, 15 to bucket 1, 25 to bucket 2, and after 5 then 8
    the only exemplar collected is the one of 8. *)
Theorem Aligned_offer_selects_bucket :
  (∀ (C : Collaborators) (boundaries : list (@Number C))
     (history : list (@call C)) (value : @Number C) (time_unix_nano : Z)
     (attributes : @Attributes C) (ctx : @Context C),
     ∃ r0 r (n : nat) bucket',
       AlignedHistogramBucketExemplarReservoir_init boundaries [] = Ok r0 ∧
       run history (Aligned r0) = Aligned r ∧
       _boundaries r = boundaries ∧
       AlignedHistogramBucketExemplarReservoir_find_bucket_index
         value time_unix_nano attributes ctx r = Z.of_nat n ∧
       selects value boundaries n ∧
       AlignedHistogramBucketExemplarReservoir_offer
         value time_unix_nano attributes ctx r =
       (Ok (),
        {| Aligned_super :=
             {| _size := _size (Aligned_super r);
                _reservoir_storage :=
                  alter
                    (ExemplarBucket_offer value time_unix_nano attributes ctx)
                    n (_reservoir_storage (Aligned_super r)) |};
           _boundaries := _boundaries r |}) ∧
       alter (ExemplarBucket_offer value time_unix_nano attributes ctx)
         n (_reservoir_storage (Aligned_super r)) !! n = Some bucket' ∧
       __value bucket' = value ∧
       __time_unix_nano bucket' = time_unix_nano ∧
       __attributes bucket' = attributes ∧
       __offered bucket' = true) ∧
  index_10_20 5 = 0 ∧ index_10_20 15 = 1 ∧ index_10_20 25 = 2 ∧
  AlignedHistogramBucketExemplarReservoir_init [10; 20] [] = Ok aligned_10_20 ∧
  (collect (Some ∅)
     (run [Offer 0 (sample 5); Offer 0 (sample 8)] (Aligned aligned_10_20))).1
  = Ok [mkExemplar None 8 8 None None].
Proof.
  split; [|by vm_compute].
  intros C boundaries history value time_unix_nano attributes ctx.
  destruct (AlignedHistogramBucketExemplarReservoir_init boundaries [])
    as [r0|err] eqn:Hinit; [|done].
  destruct (run_Aligned history r0) as (r & Hrun & Hb).
  assert (reachable (Aligned r)) as Hreach.
  { rewrite <-Hrun. apply reachable_run. by eapply reachable_Aligned. }
  assert (_boundaries r = boundaries) as Hbs.
  { rewrite Hb. revert Hinit.
    unfold AlignedHistogramBucketExemplarReservoir_init.
    destruct (FixedSizeExemplarReservoirABC_init _ _); [|done].
    by intros [= <-]. }
  destruct (find_bucket_index_selects value time_unix_nano attributes ctx r)
    as (n & Hn & _ & Hsel).
  destruct (Aligned_offer_writes value time_unix_nano attributes ctx r n
              Hreach Hn) as [Hlt Hoffer].
  destruct (lookup_lt_is_Some_2 _ _ Hlt) as [bucket Hbucket].
  exists r0, r, n,
    (ExemplarBucket_offer value time_unix_nano attributes ctx bucket).
  rewrite <-Hbs at 2.
  split_and!; try done.
  - by rewrite list_lookup_alter_eq, Hbucket.
  - apply ExemplarBucket_offer_sample.
  - apply ExemplarBucket_offer_sample.
  - apply ExemplarBucket_offer_sample.
  - apply ExemplarBucket_offer_sample.
Qed.

(** C1 (not met by the code): on the fill branch the counter is returned
    as the index and is not written.  A uniform reservoir of size 2, just
    built, has counter 0; whatever is offered, with whatever draw, the index
    found is 0 and the counter is still 0 after [offer], not 1. *)
Theorem fill_branch_leaves_counter :
  SimpleFixedSizeExemplarReservoir_init 2 [] = Ok (simple_of_size 2) ∧
  _measurements_seen (simple_of_size 2) = 0 ∧
  ∀ draw value time_unix_nano attributes ctx,
    SimpleFixedSizeExemplarReservoir_find_bucket_index
      draw value time_unix_nano attributes ctx (simple_of_size 2) =
      (Ok 0, simple_of_size 2) ∧
    _measurements_seen
      (SimpleFixedSizeExemplarReservoir_offer
         draw value time_unix_nano attributes ctx (simple_of_size 2)).2 = 0 ∧
    _measurements_seen
      (SimpleFixedSizeExemplarReservoir_offer
         draw value time_unix_nano attributes ctx (simple_of_size 2)).2 ≠
      _measurements_seen (simple_of_size 2) + 1.
Proof.
  split; [done|]. split; [done|].
  intros draw value time_unix_nano attributes ctx.
  split; [done|].
  rewrite Simple_offer_writes_first;
    [done | by apply (reachable_Simple 2 []) | done].
Qed.

(** C2 (not met by the code): a uniform reservoir of size 2 is reset by a
    [collect], the two distinct measurements 1 and 2 are offered, and
    [collect] returns one exemplar, that of 2: both went to bucket 0.  The
    same holds on the reservoir as built. *)
Theorem two_offers_one_exemplar :
  SimpleFixedSizeExemplarReservoir_init 2 [] = Ok (simple_of_size 2) ∧
  ∀ draw1 draw2,
    (collect (Some ∅)
       (run [Collect (Some ∅); Offer draw1 (sample 1); Offer draw2 (sample 2)]
          (Simple (simple_of_size 2)))).1
    = Ok [mkExemplar None 2 2 None None] ∧
    (collect (Some ∅)
       (run [Offer draw1 (sample 1); Offer draw2 (sample 2)]
          (Simple (simple_of_size 2)))).1
    = Ok [mkExemplar None 2 2 None None].
Proof. split; [done|]. intros draw1 draw2. split; reflexivity. Qed.

(** C4 (not met by the code): a bucket that took a measurement inside the
    span (1, 2) and then, not collected in between, one outside any span
    still has span id 1 and trace id 2, and the exemplar of the second
    measurement carries them.  A histogram-aligned reservoir gets there
    with 5 offered in the span and 8 outside it. *)
Theorem stale_span_kept :
  let b1 := ExemplarBucket_offer 5 5 None (in_span 1 2) ExemplarBucket_init in
  let b2 := ExemplarBucket_offer 8 8 None no_span b1 in
  get_current_span no_span = INVALID_SPAN ∧
  __span_id b2 = Some 1 ∧
  __trace_id b2 = Some 2 ∧
  ExemplarBucket_collect (Some ∅) b2 =
    (Ok (Some (mkExemplar None 8 8 (Some 1) (Some 2))),
     ExemplarBucket_reset b2) ∧
  (collect (Some ∅)
     (run [Offer 0 (mkMeasurement 5 5 None (in_span 1 2)); Offer 0 (sample 8)]
        (Aligned aligned_10_20))).1
  = Ok [mkExemplar None 8 8 (Some 1) (Some 2)].
Proof. by vm_compute. Qed.

(** C9 (not met by the code): with a sample that has an attribute in a
    bucket, [collect(None)] raises [TypeError], on the bucket and on the
    reservoir; the bucket keeps its sample.  And on the uniform reservoir
    built with size 0 every [offer] raises [ValueError]. *)
Theorem collect_None_raises :
  let b :=
    ExemplarBucket_offer 1 1 (Some {[ "a"%string := 1 ]}) no_span
      ExemplarBucket_init in
  ExemplarBucket_collect None b = (Raise TypeError, b) ∧
  (collect None
     (run [Offer 0 (sample_with "a" 1)] (Simple (simple_of_size 1)))).1
  = Raise TypeError ∧
  ∀ draw m,
    (offer draw (m_value m) (m_time_unix_nano m) (m_attributes m) (m_ctx m)
       (Simple (simple_of_size 0))).1 = Raise ValueError.
Proof. split_and!; [by vm_compute..|done]. Qed.

(** C3 as stated fails: the uniform reservoir is built with size 0, and
    with size -1, without any error. *)
Lemma nonpositive_size_not_rejected :
  0 ≤ 0 ∧ -1 ≤ 0 ∧
  raises (SimpleFixedSizeExemplarReservoir_init 0 []) = false ∧
  raises (SimpleFixedSizeExemplarReservoir_init (-1) []) = false ∧
  raises (FixedSizeExemplarReservoirABC_init 0 []) = false.
Proof. done. Qed.

(** ** The theorems at work *)

(** The uniform reservoir of size 1 holding the measurement 1 with
    attribute [a]. *)
Lemma one_sample_reachable :
  reachable (run [Offer 0 (sample_with "a" 1)] (Simple (simple_of_size 1))).
Proof. apply reachable_run. by apply (reachable_Simple 1 []). Defined.

Lemma nonpositive_size_accepted_witness :
  -1 ≤ 0 ∧
  ∃ r : SimpleFixedSizeExemplarReservoir,
    SimpleFixedSizeExemplarReservoir_init (-1) [] = Ok r ∧
    FixedSizeExemplarReservoirABC_init (-1) [] = Ok (Simple_super r) ∧
    maxSize (Simple_super r) = -1 ∧
    _reservoir_storage (Simple_super r) = [] ∧
    (∀ draw value time_unix_nano attributes ctx,
       SimpleFixedSizeExemplarReservoir_offer
         draw value time_unix_nano attributes ctx r = (Raise ValueError, r)) ∧
    (∀ pa, SimpleFixedSizeExemplarReservoir_collect pa r = (Ok [], r)).
Proof.
  split; [lia|]. apply (nonpositive_size_accepted (-1)). lia.
Defined.

Lemma collect_filters_point_attributes_witness :
  let self := run [Offer 0 (sample_with "a" 1)] (Simple (simple_of_size 1)) in
  let pa : Attributes := Some {[ "a"%string := 7 ]} in
  let l := [mkExemplar (Some ∅) 1 1 None None] in
  (collect pa self).1 = Ok l ∧
  Forall2 (exemplar_of pa)
    (filter (λ b, __offered b = true) (_reservoir_storage (base_of self))) l ∧
  Forall (λ e, ∀ k,
            is_Some (attributes_map (ex_filtered_attributes e) !! k) →
            attributes_map pa !! k = None) l.
Proof.
  intros self pa l.
  split; [vm_compute; reflexivity|].
  apply (collect_filters_point_attributes self pa l).
  vm_compute; reflexivity.
Defined.

Lemma collect_twice_empty_witness :
  let self := run [Offer 0 (sample_with "a" 1)] (Simple (simple_of_size 1)) in
  raises (collect (Some ∅) self).1 = false ∧
  (collect None (collect (Some ∅) self).2).1 = Ok [] ∧
  Forall (λ b, __offered b = false)
    (_reservoir_storage (base_of (collect (Some ∅) self).2)).
Proof.
  intros self.
  split; [vm_compute; reflexivity|].
  apply (collect_twice_empty self (Some ∅) None).
  vm_compute; reflexivity.
Defined.

Lemma collect_bounded_and_resets_witness :
  let self := run [Offer 0 (sample_with "a" 1)] (Simple (simple_of_size 1)) in
  let counted :=
    Simple
      {| Simple_super :=
           {| _size := 2;
              _reservoir_storage :=
                [ExemplarBucket_offer 1 1 None no_span ExemplarBucket_init;
                 ExemplarBucket_offer 2 2 None no_span ExemplarBucket_init] |};
         _measurements_seen := 5 |} in
  reachable self ∧
  raises (collect (Some ∅) self).1 = false ∧
  (∃ l, (collect (Some ∅) self).1 = Ok l ∧
     Z.of_nat (length l) ≤ Z.max 0 (maxSize (base_of self)) ∧
     Forall (λ b, __offered b = false ∧ blank b)
       (_reservoir_storage (base_of (collect (Some ∅) self).2))) ∧
  ¬ counter_reset counted ∧
  counter_reset (collect (Some ∅) counted).2.
Proof.
  intros self counted.
  split; [exact one_sample_reachable|].
  split; [vm_compute; reflexivity|].
  split.
  - apply (proj1 (collect_bounded_and_resets self (Some ∅))).
    + exact one_sample_reachable.
    + vm_compute; reflexivity.
  - split; [by vm_compute|].
    exact (proj2 (collect_bounded_and_resets counted (Some ∅))).
Defined.

Lemma Aligned_offer_in_bounds_witness :
  reachable (Aligned aligned_10_20) ∧
  0 ≤ index_10_20 15 ≤ 2 ∧
  length (_reservoir_storage (Aligned_super aligned_10_20)) = 3%nat ∧
  ∃ r' bucket,
    AlignedHistogramBucketExemplarReservoir_offer 15 15 None no_span
      aligned_10_20 = (Ok (), r') ∧
    length (_reservoir_storage (Aligned_super r')) = 3%nat ∧
    _reservoir_storage (Aligned_super aligned_10_20)
      !! Z.to_nat (index_10_20 15) = Some bucket ∧
    _reservoir_storage (Aligned_super r') !! Z.to_nat (index_10_20 15) =
      Some (ExemplarBucket_offer 15 15 None no_span bucket) ∧
    ∀ j, j ≠ Z.to_nat (index_10_20 15) →
      _reservoir_storage (Aligned_super r') !! j =
        _reservoir_storage (Aligned_super aligned_10_20) !! j.
Proof.
  assert (reachable (Aligned aligned_10_20)) as Hreach
    by (eapply reachable_Aligned, Aligned_init_10_20).
  split; [exact Hreach|].
  exact (Aligned_offer_in_bounds 15 15 None no_span aligned_10_20 Hreach).
Defined.

End Concrete.

(** * Further properties of the module *)

Section Further.
Context `{Collaborators}.

Implicit Types (b bucket : ExemplarBucket) (storage : list ExemplarBucket).
Implicit Types (pa point_attributes attributes : Attributes).
Implicit Types (p : gmap string AttributeValue).

(** ** When [collect] raises *)

Lemma filtered_attributes_None_raises attributes :
  raises (filtered_attributes attributes None) =
    match attributes with
    | Some m => bool_decide (m ≠ ∅)
    | None => false
    end.
Proof.
  destruct attributes as [m|]; simpl; [|done].
  case_bool_decide as Hm; [|done].
  simpl. by rewrite bool_decide_eq_false_2.
Qed.

Lemma ExemplarBucket_collect_raises pa b :
  raises (ExemplarBucket_collect pa b).1 =
    match pa with
    | None => holds_attributes b
    | Some _ => false
    end.
Proof.
  unfold ExemplarBucket_collect, holds_attributes.
  destruct (__offered b); simpl; [|by destruct pa].
  destruct pa as [p|].
  - by rewrite filtered_attributes_mapping.
  - rewrite <-filtered_attributes_None_raises.
    by destruct (filtered_attributes _ _).
Qed.

Lemma collect_buckets_raises pa storage :
  raises (collect_buckets pa storage).1 = true ↔
  pa = None ∧ Exists (λ b, holds_attributes b = true) storage.
Proof.
  induction storage as [|b rest IH]; simpl.
  { split; [done|]. intros [_ Hex]. by apply Exists_nil in Hex. }
  rewrite Exists_cons.
  pose proof (ExemplarBucket_collect_raises pa b) as Hb.
  destruct (ExemplarBucket_collect pa b) as [[e|err] b'] eqn:Hcb; simpl in Hb.
  - destruct (collect_buckets pa rest) as [[l|err] rest'] eqn:Hrest;
      simpl in *.
    + split; [done|]. intros (-> & [Hhold|Hex]); [congruence|].
      by apply IH.
    + split; [|done]. intros _.
      destruct (proj1 IH eq_refl) as [-> Hex]. auto.
  - split; [|done]. intros _.
    destruct pa; [done|]. auto.
Qed.

(** The buckets in front of the first one on which [collect] raises are
    emptied, that one and the ones behind it are left as they are. *)
Lemma collect_buckets_failure_state pa storage :
  raises (collect_buckets pa storage).1 = true →
  ∃ pre b post pre',
    storage = pre ++ b :: post ∧
    Forall (λ b, holds_attributes b = false) pre ∧
    holds_attributes b = true ∧
    (collect_buckets pa storage).2 = pre' ++ b :: post ∧
    length pre' = length pre ∧
    Forall (λ b, __offered b = false) pre'.
Proof.
  intros Hraise.
  assert (pa = None) as ->
    by (by apply collect_buckets_raises in Hraise as [? _]).
  revert Hraise.
  induction storage as [|b rest IH]; simpl; [done|].
  pose proof (ExemplarBucket_collect_raises None b) as Hb.
  destruct (ExemplarBucket_collect None b) as [[e|err] b'] eqn:Hcb;
    simpl in Hb.
  - apply ExemplarBucket_collect_Ok in Hcb as [Hoff' _].
    destruct (collect_buckets None rest) as [[l|err] rest'] eqn:Hrest;
      simpl in *; [done|].
    intros _.
    destruct (IH eq_refl)
      as (pre & b0 & post & pre' & -> & Hpre & Hb0 & -> & Hlen & Hvac).
    exists (b :: pre), b0, post, (b' :: pre').
    split_and!; try done; [by constructor | simpl; lia | by constructor].
  - apply ExemplarBucket_collect_Raise in Hcb as (-> & _).
    intros _. by exists [], b, rest, [].
Qed.

(** X1: [collect] raises exactly when [point_attributes] is [None] and
    some bucket holds a sample with a non-empty attribute mapping, and what
    it raises then is [TypeError]; in every other case it returns. *)
Theorem collect_raises_iff pa self :
  (raises (collect pa self).1 = true ↔
   pa = None ∧
   Exists (λ b, holds_attributes b = true)
     (_reservoir_storage (base_of self))) ∧
  (raises (collect pa self).1 = true → (collect pa self).1 = Raise TypeError).
Proof.
  split.
  - by rewrite <-collect_buckets_raises, <-collect_result.
  - intros Hraise.
    destruct (collect pa self).1 as [l|err] eqn:Hres; [done|].
    by apply collect_raises_only_on_None in Hres as [_ ->].
Qed.

(** X2: a [collect] that raises has already reset the counter and emptied
    the buckets in front of the one it failed on, without returning their
    exemplars; that bucket and the ones behind it keep what they held. *)
Theorem collect_failure_state pa self :
  raises (collect pa self).1 = true →
  ∃ pre b post pre',
    _reservoir_storage (base_of self) = pre ++ b :: post ∧
    Forall (λ b, holds_attributes b = false) pre ∧
    holds_attributes b = true ∧
    _reservoir_storage (base_of (collect pa self).2) = pre' ++ b :: post ∧
    length pre' = length pre ∧
    Forall (λ b, __offered b = false) pre' ∧
    counter_reset (collect pa self).2.
Proof.
  rewrite collect_result. intros Hraise.
  destruct (collect_buckets_failure_state _ _ Hraise)
    as (pre & b & post & pre' & Hst & Hpre & Hb & Hst' & Hlen & Hvac).
  destruct (collect_state pa self) as (Hstate & _ & Hkind).
  exists pre, b, post, pre'. rewrite Hstate.
  split_and!; try done.
  destruct self as [r|r]; destruct Hkind as (r' & -> & Hr'); by simpl.
Qed.

(** ** One bucket: [offer] then [collect] *)

(** X3: a measurement offered inside a valid span comes back from
    [collect] with its value, its time, its attributes without the keys of
    the point, and the ids of that span, whatever the bucket held before;
    the bucket is reset. *)
Theorem offer_in_span_then_collect value time_unix_nano attributes ctx b p :
  get_current_span ctx ≠ INVALID_SPAN →
  ∃ fa,
    ExemplarBucket_collect (Some p)
      (ExemplarBucket_offer value time_unix_nano attributes ctx b) =
    (Ok (Some
           (mkExemplar fa value time_unix_nano
              (Some (span_id (get_span_context (get_current_span ctx))))
              (Some (trace_id (get_span_context (get_current_span ctx)))))),
     ExemplarBucket_reset b) ∧
    attributes_map fa =
      filter (λ kv : string * AttributeValue, p !! kv.1 = None)
        (attributes_map attributes).
Proof.
  intros Hspan.
  destruct (filtered_attributes attributes (Some p)) as [fa|err] eqn:Hfa;
    [|by rewrite filtered_attributes_mapping in Hfa].
  exists fa. split; [|by apply filtered_attributes_spec in Hfa].
  unfold ExemplarBucket_collect, ExemplarBucket_offer.
  rewrite bool_decide_eq_true_2 by done. simpl. by rewrite Hfa.
Qed.

(** X4: a measurement offered outside any span to a blank bucket (as
    built, or as left by [collect]) comes back without span and trace
    id. *)
Theorem offer_no_span_then_collect value time_unix_nano attributes ctx b p :
  blank b →
  get_current_span ctx = INVALID_SPAN →
  ∃ fa,
    ExemplarBucket_collect (Some p)
      (ExemplarBucket_offer value time_unix_nano attributes ctx b) =
    (Ok (Some (mkExemplar fa value time_unix_nano None None)),
     ExemplarBucket_reset b) ∧
    attributes_map fa =
      filter (λ kv : string * AttributeValue, p !! kv.1 = None)
        (attributes_map attributes).
Proof.
  intros Hblank Hspan.
  destruct (filtered_attributes attributes (Some p)) as [fa|err] eqn:Hfa;
    [|by rewrite filtered_attributes_mapping in Hfa].
  exists fa. split; [|by apply filtered_attributes_spec in Hfa].
  unfold ExemplarBucket_collect, ExemplarBucket_offer.
  rewrite bool_decide_eq_false_2 by (intros Hne; by apply Hne).
  simpl. rewrite Hfa.
  by destruct Hblank as [->| ->].
Qed.

(** X5: the later of two offers to a bucket wipes out the earlier one
    altogether when it is made inside a span, or when the earlier one was
    made outside any span. *)
Theorem later_offer_absorbs value1 time1 attributes1 ctx1
    value2 time2 attributes2 ctx2 b :
  get_current_span ctx2 ≠ INVALID_SPAN ∨
  get_current_span ctx1 = INVALID_SPAN →
  ExemplarBucket_offer value2 time2 attributes2 ctx2
    (ExemplarBucket_offer value1 time1 attributes1 ctx1 b) =
  ExemplarBucket_offer value2 time2 attributes2 ctx2 b.
Proof.
  intros Hspans. unfold ExemplarBucket_offer.
  repeat case_bool_decide; simpl; try done.
  destruct Hspans as [?|?]; done.
Qed.

(** ** The scan over the boundaries *)

Lemma scan_boundaries_range value k boundaries :
  k ≤ default (k + Z.of_nat (length boundaries))
        (scan_boundaries value k boundaries)
    ≤ k + Z.of_nat (length boundaries).
Proof.
  destruct (scan_boundaries_selects value k boundaries) as (n & -> & Hn & _).
  lia.
Qed.

Lemma scan_boundaries_monotone value1 value2 k boundaries :
  (∀ x y z, Number_le x y = true → Number_le y z = true →
            Number_le x z = true) →
  Number_le value1 value2 = true →
  default (k + Z.of_nat (length boundaries))
    (scan_boundaries value1 k boundaries) ≤
  default (k + Z.of_nat (length boundaries))
    (scan_boundaries value2 k boundaries).
Proof.
  intros Htrans Hle. revert k.
  induction boundaries as [|boundary rest IH]; intros k; simpl; [lia|].
  destruct (Number_le value2 boundary) eqn:H2.
  - by rewrite (Htrans _ _ _ Hle H2).
  - replace (k + Z.of_nat (S (length rest)))
      with (k + 1 + Z.of_nat (length rest)) by lia.
    destruct (Number_le value1 boundary) eqn:H1; [|by apply IH].
    simpl. pose proof (scan_boundaries_range value2 (k + 1) rest). lia.
Qed.

Lemma find_bucket_index_default value time_unix_nano attributes ctx
    (r : AlignedHistogramBucketExemplarReservoir) :
  AlignedHistogramBucketExemplarReservoir_find_bucket_index
    value time_unix_nano attributes ctx r =
  default (0 + Z.of_nat (length (_boundaries r)))
    (scan_boundaries value 0 (_boundaries r)).
Proof.
  unfold AlignedHistogramBucketExemplarReservoir_find_bucket_index.
  by destruct (scan_boundaries _ _ _).
Qed.

(** X6: when the comparison of numbers is transitive, a value that is at
    most another never gets a later bucket, whatever the boundaries. *)
Theorem find_bucket_index_monotone value1 time1 attributes1 ctx1
    value2 time2 attributes2 ctx2
    (r : AlignedHistogramBucketExemplarReservoir) :
  (∀ x y z, Number_le x y = true → Number_le y z = true →
            Number_le x z = true) →
  Number_le value1 value2 = true →
  AlignedHistogramBucketExemplarReservoir_find_bucket_index
    value1 time1 attributes1 ctx1 r ≤
  AlignedHistogramBucketExemplarReservoir_find_bucket_index
    value2 time2 attributes2 ctx2 r.
Proof.
  intros Htrans Hle. rewrite !find_bucket_index_default.
  by apply scan_boundaries_monotone.
Qed.

Lemma scan_boundaries_sorted value k boundaries :
  (∀ x y z, Number_le x y = true → Number_le y z = true →
            Number_le x z = true) →
  StronglySorted (λ x y, Number_le x y = true) boundaries →
  default (k + Z.of_nat (length boundaries))
    (scan_boundaries value k boundaries) =
  k + Z.of_nat
        (length (filter (λ boundary, Number_le value boundary = false)
                   boundaries)).
Proof.
  intros Htrans Hsorted. revert k.
  induction Hsorted as [|boundary rest Hsorted IH Hall]; intros k; simpl;
    [lia|].
  destruct (Number_le value boundary) eqn:Hle.
  - rewrite filter_cons_False by congruence. simpl.
    assert (filter (λ boundary', Number_le value boundary' = false) rest = [])
      as ->; [|simpl; lia].
    clear IH Hsorted. induction Hall as [|x rest' Hx _ IHall]; [done|].
    rewrite filter_cons_False; [done|].
    by rewrite (Htrans _ _ _ Hle Hx).
  - rewrite filter_cons_True by done. simpl.
    replace (k + Z.of_nat (S (length rest)))
      with (k + 1 + Z.of_nat (length rest)) by lia.
    rewrite IH. lia.
Qed.

(** X7: over boundaries in ascending order (and a transitive comparison)
    the index found is the number of boundaries below the value, the
    position a left bisection gives. *)
Theorem find_bucket_index_sorted value time_unix_nano attributes ctx
    (r : AlignedHistogramBucketExemplarReservoir) :
  (∀ x y z, Number_le x y = true → Number_le y z = true →
            Number_le x z = true) →
  StronglySorted (λ x y, Number_le x y = true) (_boundaries r) →
  AlignedHistogramBucketExemplarReservoir_find_bucket_index
    value time_unix_nano attributes ctx r =
  Z.of_nat
    (length (filter (λ boundary, Number_le value boundary = false)
               (_boundaries r))).
Proof.
  intros Htrans Hsorted. rewrite find_bucket_index_default.
  by rewrite scan_boundaries_sorted.
Qed.

(** ** Histories *)

Lemma run_app history1 history2 self :
  run (history1 ++ history2) self = run history2 (run history1 self).
Proof. unfold run. apply foldl_app. Qed.

Lemma find_bucket_index_boundaries value time_unix_nano attributes ctx
    (r1 r2 : AlignedHistogramBucketExemplarReservoir) :
  _boundaries r1 = _boundaries r2 →
  AlignedHistogramBucketExemplarReservoir_find_bucket_index
    value time_unix_nano attributes ctx r1 =
  AlignedHistogramBucketExemplarReservoir_find_bucket_index
    value time_unix_nano attributes ctx r2.
Proof.
  intros Hb.
  unfold AlignedHistogramBucketExemplarReservoir_find_bucket_index.
  by rewrite Hb.
Qed.

Lemma Aligned_offers_state (ms : list (Z * Measurement))
    (r : AlignedHistogramBucketExemplarReservoir) :
  reachable (Aligned r) →
  ∃ r',
    run (uncurry Offer <$> ms) (Aligned r) = Aligned r' ∧
    _boundaries r' = _boundaries r ∧
    ∀ i : nat,
      match last (filter (λ dm, routed r i dm = true) ms) with
      | Some dm =>
          ∃ b', _reservoir_storage (Aligned_super r') !! i = Some b' ∧
                holds_sample dm.2 b'
      | None =>
          _reservoir_storage (Aligned_super r') !! i =
            _reservoir_storage (Aligned_super r) !! i
      end.
Proof.
  intros Hreach.
  induction ms as [|[draw m] ms IH] using rev_ind.
  { exists r. by simpl. }
  destruct IH as (r1 & Hrun & Hb & IH).
  assert (reachable (Aligned r1)) as Hreach1.
  { rewrite <-Hrun. by apply reachable_run. }
  destruct (find_bucket_index_selects (m_value m) (m_time_unix_nano m)
              (m_attributes m) (m_ctx m) r1) as (n & Hn & _ & _).
  destruct (Aligned_offer_writes (m_value m) (m_time_unix_nano m)
              (m_attributes m) (m_ctx m) r1 n Hreach1 Hn) as [Hlt Hoffer].
  rewrite fmap_app, run_app, Hrun. simpl. unfold run. simpl.
  rewrite Hoffer. simpl.
  eexists. split; [done|]. simpl. split; [done|].
  intros i. rewrite filter_app. specialize (IH i).
  destruct (decide (n = i)) as [->|Hne].
  - rewrite filter_cons_True, filter_nil, last_snoc.
    2:{ unfold routed. simpl. apply bool_decide_eq_true_2.
        by rewrite <-(find_bucket_index_boundaries _ _ _ _ r1 r Hb). }
    destruct (lookup_lt_is_Some_2 _ _ Hlt) as [bucket Hbucket].
    eexists. rewrite list_lookup_alter_eq, Hbucket. simpl.
    split; [done|].
    destruct (ExemplarBucket_offer_sample (m_value m) (m_time_unix_nano m)
                (m_attributes m) (m_ctx m) bucket) as (? & ? & ? & ?).
    by split_and!.
  - rewrite filter_cons_False, filter_nil, app_nil_r.
    2:{ unfold routed. simpl. intros Hrouted.
        apply bool_decide_eq_true_1 in Hrouted.
        rewrite <-(find_bucket_index_boundaries _ _ _ _ r1 r Hb) in Hrouted.
        lia. }
    by rewrite list_lookup_alter_ne.
Qed.

(** X8: after a run of offers to a histogram-aligned reservoir, each
    bucket holds the sample of the last measurement that was routed to it,
    and a bucket no measurement was routed to is as it was. *)
Theorem Aligned_buckets_hold_last (ms : list (Z * Measurement))
    (r : AlignedHistogramBucketExemplarReservoir) :
  reachable (Aligned r) →
  ∃ r',
    run (uncurry Offer <$> ms) (Aligned r) = Aligned r' ∧
    _boundaries r' = _boundaries r ∧
    ∀ i : nat,
      match last (filter (λ dm, routed r i dm = true) ms) with
      | Some dm =>
          ∃ b', _reservoir_storage (Aligned_super r') !! i = Some b' ∧
                holds_sample dm.2 b'
      | None =>
          _reservoir_storage (Aligned_super r') !! i =
            _reservoir_storage (Aligned_super r) !! i
      end.
Proof. apply Aligned_offers_state. Qed.

Lemma run_shape history self :
  maxSize (base_of (run history self)) = maxSize (base_of self) ∧
  length (_reservoir_storage (base_of (run history self))) =
    length (_reservoir_storage (base_of self)) ∧
  match self with
  | Simple _ => ∃ r', run history self = Simple r'
  | Aligned r =>
      ∃ r', run history self = Aligned r' ∧ _boundaries r' = _boundaries r
  end.
Proof.
  revert self.
  induction history as [|c history IH]; intros self.
  { destruct self; simpl; eauto. }
  change (run (c :: history) self) with (run history (step self c)).
  destruct (IH (step self c)) as (Hsize & Hlen & Hkind).
  rewrite Hsize, Hlen.
  assert (maxSize (base_of (step self c)) = maxSize (base_of self) ∧
          length (_reservoir_storage (base_of (step self c))) =
            length (_reservoir_storage (base_of self)) ∧
          match self with
          | Simple _ => ∃ r', step self c = Simple r'
          | Aligned r =>
              ∃ r', step self c = Aligned r' ∧ _boundaries r' = _boundaries r
          end) as (Hsize1 & Hlen1 & Hkind1).
  { destruct c as [draw m|pa]; simpl.
    - destruct (offer_state draw (m_value m) (m_time_unix_nano m)
                  (m_attributes m) (m_ctx m) self) as (Hs & Hst & Hk).
      cbv zeta in Hs, Hst, Hk. split; [done|]. split.
      + destruct Hst as [->|(i & _ & ->)]; [done|]. by rewrite length_alter.
      + destruct self; destruct Hk as (r' & -> & ?); eauto.
    - destruct (collect_state pa self) as (Hst & Hs & Hk).
      split; [done|]. split.
      + by rewrite Hst, collect_buckets_length.
      + destruct self; destruct Hk as (r' & -> & ?); eauto. }
  split; [done|]. split; [done|].
  destruct self as [r|r].
  - destruct Hkind1 as (r1 & Hr1). rewrite Hr1 in Hkind |- *. done.
  - destruct Hkind1 as (r1 & Hr1 & Hb1). rewrite Hr1 in Hkind |- *.
    destruct Hkind as (r' & -> & Hb'). exists r'. split; [done|].
    by rewrite Hb', Hb1.
Qed.

(** X9: whatever the calls, a reservoir keeps its size, its number of
    buckets and its class, and a histogram-aligned one its boundaries. *)
Theorem run_keeps_shape history self :
  maxSize (base_of (run history self)) = maxSize (base_of self) ∧
  length (_reservoir_storage (base_of (run history self))) =
    length (_reservoir_storage (base_of self)) ∧
  match self with
  | Simple _ => ∃ r', run history self = Simple r'
  | Aligned r =>
      ∃ r', run history self = Aligned r' ∧ _boundaries r' = _boundaries r
  end.
Proof. apply run_shape. Qed.

(** X10: an [offer], on any reservoir in any state, writes at most one
    bucket, with the measurement offered; when it raises it has written
    none. *)
Theorem offer_touches_one_bucket draw value time_unix_nano attributes ctx
    self :
  let outcome := offer draw value time_unix_nano attributes ctx self in
  _reservoir_storage (base_of outcome.2) = _reservoir_storage (base_of self) ∨
  outcome.1 = Ok () ∧
  ∃ i bucket,
    _reservoir_storage (base_of self) !! i = Some bucket ∧
    _reservoir_storage (base_of outcome.2) =
      <[i := ExemplarBucket_offer value time_unix_nano attributes ctx bucket]>
        (_reservoir_storage (base_of self)).
Proof.
  assert (∀ storage (i : nat),
            (i < length storage)%nat →
            ∃ bucket, storage !! i = Some bucket ∧
              alter (ExemplarBucket_offer value time_unix_nano attributes ctx)
                i storage =
              <[i := ExemplarBucket_offer value time_unix_nano attributes ctx
                       bucket]> storage) as Halter.
  { intros storage i Hi.
    destruct (lookup_lt_is_Some_2 _ _ Hi) as [bucket Hbucket].
    exists bucket. split; [done|].
    apply list_eq. intros j. destruct (decide (i = j)) as [->|Hne].
    - by rewrite list_lookup_alter_eq, list_lookup_insert_eq, Hbucket.
    - by rewrite list_lookup_alter_ne, list_lookup_insert_ne. }
  destruct self as [r|r]; simpl.
  - unfold SimpleFixedSizeExemplarReservoir_offer, mbind, M_bind,
      SimpleFixedSizeExemplarReservoir_find_bucket_index, randrange,
      storage_offer, mret, M_ret.
    destruct (_measurements_seen r <? _size (Simple_super r)).
    + case_bool_decide; simpl; [|by left].
      destruct (list_index _ _) as [i|err] eqn:Hi; simpl; [|by left].
      apply list_index_Ok in Hi. right. split; [done|].
      destruct (Halter _ _ Hi) as (bucket & ? & ?). eauto.
    + destruct (0 <? _measurements_seen r); simpl; [|by left].
      case_bool_decide; simpl; [|by left].
      destruct (list_index _ _) as [i|err] eqn:Hi; simpl; [|by left].
      apply list_index_Ok in Hi. right. split; [done|].
      destruct (Halter _ _ Hi) as (bucket & ? & ?). eauto.
  - unfold AlignedHistogramBucketExemplarReservoir_offer, mbind, M_bind,
      gets, storage_offer.
    destruct (list_index _ _) as [i|err] eqn:Hi; simpl; [|by left].
    apply list_index_Ok in Hi. right. split; [done|].
    destruct (Halter _ _ Hi) as (bucket & ? & ?). eauto.
Qed.

(** ** The uniform reservoir, as it runs *)

Lemma collect_buckets_tail pa b rest :
  Forall (λ b, __offered b = false) rest →
  tail (collect_buckets pa (b :: rest)).2 = rest.
Proof.
  intros Hrest. simpl.
  destruct (ExemplarBucket_collect pa b) as [[e|err] b']; [|done].
  by rewrite collect_buckets_vacant.
Qed.

Lemma reachable_tail_vacant self :
  reachable self →
  match self with
  | Simple r =>
      Forall (λ b, __offered b = false)
        (tail (_reservoir_storage (Simple_super r)))
  | Aligned _ => True
  end.
Proof.
  induction 1
    as [size kwargs r Hr|boundaries kwargs r Hr
       |draw value time_unix_nano attributes ctx self Hreach IH
       |pa self Hreach IH].
  - revert Hr. unfold SimpleFixedSizeExemplarReservoir_init,
      FixedSizeExemplarReservoirABC_init.
    destruct (object_init kwargs); [|done]. intros [= <-]. simpl.
    destruct (Z.to_nat size); simpl; [done|]. by apply Forall_replicate.
  - done.
  - destruct self as [r|r]; simpl.
    + destruct (decide (1 ≤ _size (Simple_super r))) as [Hsize|Hsize].
      * rewrite Simple_offer_writes_first by done. simpl.
        by destruct (_reservoir_storage (Simple_super r)).
      * by rewrite Simple_offer_no_bucket by (done || lia).
    + by destruct (AlignedHistogramBucketExemplarReservoir_offer
                     value time_unix_nano attributes ctx r).
  - destruct self as [r|r]; simpl.
    + unfold SimpleFixedSizeExemplarReservoir_collect,
        FixedSizeExemplarReservoirABC_collect. simpl.
      destruct (_reservoir_storage (Simple_super r)) as [|b rest] eqn:Hst;
        [done|].
      pose proof (collect_buckets_tail pa b rest IH) as Htail.
      destruct (collect_buckets pa (b :: rest)) as [res storage'].
      simpl in *. by rewrite Htail.
    + by destruct (AlignedHistogramBucketExemplarReservoir_collect pa r).
Qed.

(** X11: in every state a uniform reservoir can reach, only bucket 0 can
    hold a sample, whatever its size, so [collect] returns at most one
    exemplar. *)
Theorem Simple_only_first_bucket (r : SimpleFixedSizeExemplarReservoir) :
  reachable (Simple r) →
  Forall (λ b, __offered b = false)
    (tail (_reservoir_storage (Simple_super r))) ∧
  ∀ pa l, (collect pa (Simple r)).1 = Ok l → (length l ≤ 1)%nat.
Proof.
  intros Hreach.
  pose proof (reachable_tail_vacant _ Hreach) as Htail. simpl in Htail.
  split; [done|]. intros pa l Hl.
  apply collect_Ok in Hl as (storage' & Hcb & _).
  apply collect_buckets_Ok in Hcb as [_ Hex].
  rewrite <-(Forall2_length _ _ _ Hex). simpl.
  destruct (_reservoir_storage (Simple_super r)) as [|b rest];
    [simpl; lia|].
  simpl in Htail.
  assert (filter (λ b, __offered b = true) rest = []) as Hnone.
  { clear Hex. induction Htail as [|b' rest' Hb' _ IH]; [done|].
    rewrite filter_cons_False; [done | congruence]. }
  destruct (decide (__offered b = true)).
  - rewrite filter_cons_True, Hnone by done. simpl. lia.
  - rewrite filter_cons_False, Hnone by done. simpl. lia.
Qed.

(** X12: on a reachable uniform reservoir the random draw has no part in
    what [offer] does. *)
Theorem Simple_offer_ignores_draw draw1 draw2 value time_unix_nano
    attributes ctx (r : SimpleFixedSizeExemplarReservoir) :
  reachable (Simple r) →
  SimpleFixedSizeExemplarReservoir_offer
    draw1 value time_unix_nano attributes ctx r =
  SimpleFixedSizeExemplarReservoir_offer
    draw2 value time_unix_nano attributes ctx r.
Proof.
  intros Hreach.
  destruct (decide (1 ≤ _size (Simple_super r))) as [Hsize|Hsize].
  - by rewrite !Simple_offer_writes_first.
  - by rewrite !Simple_offer_no_bucket by (done || lia).
Qed.

(** X13: the draw branch.  With a counter that is positive and at least
    the size, and as many buckets as the size says, [offer] returns and adds
    one to the counter; the index drawn lies below the counter; the
    measurement is written to the bucket of that index when there is one
    and dropped otherwise. *)
Theorem Simple_offer_draw_branch draw value time_unix_nano attributes ctx
    (r : SimpleFixedSizeExemplarReservoir) :
  0 < _measurements_seen r →
  _size (Simple_super r) ≤ _measurements_seen r →
  length (_reservoir_storage (Simple_super r)) =
    Z.to_nat (_size (Simple_super r)) →
  let index := draw `mod` _measurements_seen r in
  0 ≤ index < _measurements_seen r ∧
  SimpleFixedSizeExemplarReservoir_offer
    draw value time_unix_nano attributes ctx r =
  (Ok (),
   {| Simple_super :=
        {| _size := _size (Simple_super r);
           _reservoir_storage :=
             if index <? _size (Simple_super r)
             then alter
                    (ExemplarBucket_offer value time_unix_nano attributes ctx)
                    (Z.to_nat index) (_reservoir_storage (Simple_super r))
             else _reservoir_storage (Simple_super r) |};
      _measurements_seen := _measurements_seen r + 1 |}).
Proof.
  destruct r as [[size storage] seen]. simpl.
  intros Hpos Hfull Hlen. set (index := draw `mod` seen).
  assert (0 ≤ index < seen) as Hindex by (by apply Z.mod_pos_bound).
  split; [done|].
  unfold SimpleFixedSizeExemplarReservoir_offer, mbind, M_bind,
    SimpleFixedSizeExemplarReservoir_find_bucket_index, randrange. simpl.
  rewrite (proj2 (Z.ltb_ge _ _) Hfull), (proj2 (Z.ltb_lt _ _) Hpos).
  rewrite Z.sub_0_r, Z.add_0_l. fold index.
  destruct (index <? size) eqn:Hin.
  - rewrite bool_decide_eq_true_2 by lia.
    unfold storage_offer. simpl.
    by rewrite list_index_in_range by lia.
  - by rewrite bool_decide_eq_false_2 by (intros Hne; by apply Hne).
Qed.

(** ** Construction *)

(** X14: a keyword argument that a constructor does not take itself ends
    in [object.__init__], and the construction raises [TypeError] whatever
    the size or the boundaries. *)
Theorem constructors_reject_kwargs size (boundaries : list Number) kwargs :
  kwargs ≠ [] →
  SimpleFixedSizeExemplarReservoir_init size kwargs = Raise TypeError ∧
  AlignedHistogramBucketExemplarReservoir_init boundaries kwargs =
    Raise TypeError.
Proof. by destruct kwargs. Qed.

(** ** A collected reservoir behaves as a new one *)

Lemma blank_fields b :
  blank b → __offered b = false ∧ __span_id b = None ∧ __trace_id b = None.
Proof. by intros [->| ->]. Qed.

Lemma alike_offer value time_unix_nano attributes ctx b1 b2 :
  alike b1 b2 →
  ExemplarBucket_offer value time_unix_nano attributes ctx b1 =
  ExemplarBucket_offer value time_unix_nano attributes ctx b2.
Proof.
  intros [->|[Hb1 Hb2]]; [done|].
  apply blank_fields in Hb1 as (_ & Hs1 & Ht1).
  apply blank_fields in Hb2 as (_ & Hs2 & Ht2).
  unfold ExemplarBucket_offer. by rewrite Hs1, Ht1, Hs2, Ht2.
Qed.

Lemma alike_collect pa b1 b2 :
  alike b1 b2 →
  (ExemplarBucket_collect pa b1).1 = (ExemplarBucket_collect pa b2).1 ∧
  alike (ExemplarBucket_collect pa b1).2 (ExemplarBucket_collect pa b2).2.
Proof.
  intros [->|[Hb1 Hb2]]; [by split; [|left]|].
  rewrite !ExemplarBucket_collect_not_offered
    by (by apply blank_fields).
  split; [done|]. by right.
Qed.

Lemma collect_buckets_alike pa storage1 storage2 :
  Forall2 alike storage1 storage2 →
  (collect_buckets pa storage1).1 = (collect_buckets pa storage2).1 ∧
  Forall2 alike (collect_buckets pa storage1).2 (collect_buckets pa storage2).2.
Proof.
  induction 1 as [|b1 b2 rest1 rest2 Hb Hrest [IH1 IH2]]; simpl; [done|].
  destruct (alike_collect pa b1 b2 Hb) as [Hres Hst].
  destruct (ExemplarBucket_collect pa b1) as [[e1|err1] b1'],
    (ExemplarBucket_collect pa b2) as [[e2|err2] b2'];
    simpl in *; simplify_eq.
  - destruct (collect_buckets pa rest1) as [[l1|err1] rest1'],
      (collect_buckets pa rest2) as [[l2|err2] rest2'];
      simpl in *; simplify_eq; split; by try constructor.
  - split; [done|]. by constructor.
Qed.

Lemma list_index_length {A B : Type} (l1 : list A) (l2 : list B) (i : Z) :
  length l1 = length l2 → list_index l1 i = list_index l2 i.
Proof. intros Hlen. unfold list_index. by rewrite Hlen. Qed.

Lemma alike_storage_offer index value time_unix_nano attributes ctx
    storage1 storage2 :
  Forall2 alike storage1 storage2 →
  list_index storage1 index = list_index storage2 index ∧
  ∀ i : nat,
    Forall2 alike
      (alter (ExemplarBucket_offer value time_unix_nano attributes ctx)
         i storage1)
      (alter (ExemplarBucket_offer value time_unix_nano attributes ctx)
         i storage2).
Proof.
  intros Hst. split.
  - apply list_index_length. by eapply Forall2_length.
  - intros i. apply Forall2_alter; [done|].
    intros b1 b2 _ _ Hb. left. by apply alike_offer.
Qed.

Lemma step_alike self1 self2 c :
  alike_reservoirs self1 self2 →
  outcome self1 c = outcome self2 c ∧
  alike_reservoirs (step self1 c) (step self2 c).
Proof.
  intros (Hst & Hsize & Hkind).
  destruct self1 as [[[size1 storage1] seen1]|[[size1 storage1] bs1]],
    self2 as [[[size2 storage2] seen2]|[[size2 storage2] bs2]];
    try done; simpl in *; subst.
  - destruct c as [draw m|pa]; simpl.
    + destruct (alike_storage_offer seen2 (m_value m) (m_time_unix_nano m)
                  (m_attributes m) (m_ctx m) _ _ Hst) as [Hfill Halter].
      unfold SimpleFixedSizeExemplarReservoir_offer, mbind, M_bind,
        SimpleFixedSizeExemplarReservoir_find_bucket_index, storage_offer,
        mret, M_ret, alike_reservoirs. simpl.
      destruct (seen2 <? size2).
      * case_bool_decide; simpl; [|done]. rewrite Hfill.
        destruct (list_index storage2 seen2) as [i|err]; simpl; [|done].
        split; [done|]. split_and!; [apply Halter|done..].
      * destruct (randrange draw 0 seen2) as [index|err]; simpl; [|done].
        case_bool_decide; simpl; [|done].
        destruct (alike_storage_offer
                    (if index <? size2 then index else -1)
                    (m_value m) (m_time_unix_nano m)
                    (m_attributes m) (m_ctx m) _ _ Hst) as [Hidx Halter'].
        rewrite Hidx.
        destruct (list_index storage2 (if index <? size2 then index else -1))
          as [i|err]; simpl; [|done].
        split; [done|]. split_and!; [apply Halter'|done..].
    + unfold SimpleFixedSizeExemplarReservoir_collect,
        FixedSizeExemplarReservoirABC_collect, alike_reservoirs. simpl.
      destruct (collect_buckets_alike pa _ _ Hst) as [Hres Hst'].
      destruct (collect_buckets pa storage1), (collect_buckets pa storage2).
      simpl in *. by subst.
  - destruct c as [draw m|pa]; simpl.
    + unfold AlignedHistogramBucketExemplarReservoir_offer, mbind, M_bind,
        gets, storage_offer, alike_reservoirs,
        AlignedHistogramBucketExemplarReservoir_find_bucket_index. simpl.
      set (index := match scan_boundaries _ _ _ with
                    | Some i => i
                    | None => _
                    end).
      destruct (alike_storage_offer index (m_value m) (m_time_unix_nano m)
                  (m_attributes m) (m_ctx m) _ _ Hst) as [Hidx Halter].
      rewrite Hidx.
      destruct (list_index storage2 index) as [i|err]; simpl; [|done].
      split; [done|]. split_and!; [apply Halter|done..].
    + unfold AlignedHistogramBucketExemplarReservoir_collect,
        FixedSizeExemplarReservoirABC_collect, alike_reservoirs. simpl.
      destruct (collect_buckets_alike pa _ _ Hst) as [Hres Hst'].
      destruct (collect_buckets pa storage1), (collect_buckets pa storage2).
      simpl in *. by subst.
Qed.

Lemma outcomes_alike history self1 self2 :
  alike_reservoirs self1 self2 →
  outcomes history self1 = outcomes history self2.
Proof.
  revert self1 self2.
  induction history as [|c history IH]; intros self1 self2 Halike; [done|].
  destruct (step_alike self1 self2 c Halike) as [Hout Hstep].
  simpl. rewrite Hout. f_equal. by apply IH.
Qed.

Lemma blank_alike storage1 storage2 :
  Forall blank storage1 → Forall blank storage2 →
  length storage1 = length storage2 →
  Forall2 alike storage1 storage2.
Proof.
  intros H1. revert storage2.
  induction H1 as [|b1 rest1 Hb1 _ IH]; intros [|b2 rest2] H2 Hlen;
    simplify_eq/=; [constructor|].
  apply Forall_cons in H2 as [Hb2 H2].
  constructor; [by right | by apply IH].
Qed.

Lemma constructed_blank self :
  constructed self →
  reachable self ∧
  Forall blank (_reservoir_storage (base_of self)) ∧
  match self with
  | Simple r => _measurements_seen r = 0
  | Aligned _ => True
  end.
Proof.
  destruct self as [r|r]; simpl.
  - intros (size & kwargs & Hinit).
    split; [by eapply reachable_Simple|].
    revert Hinit. unfold SimpleFixedSizeExemplarReservoir_init,
      FixedSizeExemplarReservoirABC_init.
    destruct (object_init kwargs); [|done]. intros [= <-]. simpl.
    split; [|done]. apply Forall_replicate. by left.
  - intros (boundaries & kwargs & Hinit).
    split; [by eapply reachable_Aligned|].
    revert Hinit. unfold AlignedHistogramBucketExemplarReservoir_init,
      FixedSizeExemplarReservoirABC_init.
    destruct (object_init kwargs); [|done]. intros [= <-]. simpl.
    split; [|done]. apply Forall_replicate. by left.
Qed.

(** X15: a [collect] that returns leaves the reservoir behaving as when it
    was built: whatever was offered and collected before, any later
    history of calls gives the caller what it would give on the new
    reservoir, call by call. *)
Theorem collect_restores_fresh_behaviour self history0 pa history :
  constructed self →
  raises (collect pa (run history0 self)).1 = false →
  outcomes history (collect pa (run history0 self)).2 =
  outcomes history self.
Proof.
  intros Hnew Hret.
  destruct (constructed_blank self Hnew) as (Hreach & Hblank & Hseen).
  apply outcomes_alike.
  pose proof (reachable_run history0 self Hreach) as Hreach0.
  destruct (run_shape history0 self) as (Hsize0 & Hlen0 & Hkind0).
  destruct (collect_state pa (run history0 self)) as (Hst & Hsize & Hkind).
  pose proof (reachable_invariant _ (reachable_collect pa _ Hreach0))
    as (_ & Hblank' & _).
  apply not_raises_Ok in Hret as [l Hl].
  apply collect_Ok in Hl as (storage' & Hcb & Hst').
  apply collect_buckets_Ok in Hcb as [Hvacant _].
  unfold maxSize in Hsize0.
  split_and!.
  - apply blank_alike; [|done|].
    + rewrite Hst' in Hblank' |- *.
      rewrite Forall_forall in Hvacant, Hblank' |- *. auto.
    + by rewrite Hst, collect_buckets_length.
  - by rewrite Hsize.
  - destruct self as [r|r].
    + destruct Hkind0 as (r0 & Hr0). rewrite Hr0 in Hkind |- *.
      destruct Hkind as (r' & -> & Hr'). simpl in *. by rewrite Hr'.
    + destruct Hkind0 as (r0 & Hr0 & Hb0). rewrite Hr0 in Hkind |- *.
      destruct Hkind as (r' & -> & Hr'). simpl in *. by rewrite Hr'.
Qed.

(** ** What a histogram-aligned reservoir gives back *)

Lemma collect_buckets_samples p storage :
  ∃ l storage',
    collect_buckets (Some p) storage = (Ok l, storage') ∧
    (λ e, (ex_value e, ex_time_unix_nano e)) <$> l =
      omap (λ b, if __offered b
                 then Some (__value b, __time_unix_nano b) else None)
        storage.
Proof.
  induction storage as [|b rest (l & rest' & IH & Hl)]; simpl; [by eauto|].
  rewrite IH. unfold ExemplarBucket_collect.
  destruct (__offered b); simpl.
  - rewrite filtered_attributes_mapping. eexists _, _. split; [done|].
    rewrite fmap_cons. simpl. f_equal. exact Hl.
  - eauto.
Qed.

(** X16: measurements are offered to a histogram-aligned reservoir whose
    buckets are empty, and [collect] is called with a mapping: it returns,
    in bucket order, one exemplar for each bucket some measurement was
    routed to, with the value and time of the last such measurement. *)
Theorem Aligned_collect_last_per_bucket (ms : list (Z * Measurement))
    (r : AlignedHistogramBucketExemplarReservoir) p :
  reachable (Aligned r) →
  Forall (λ b, __offered b = false) (_reservoir_storage (Aligned_super r)) →
  ∃ l,
    (collect (Some p) (run (uncurry Offer <$> ms) (Aligned r))).1 = Ok l ∧
    (λ e, (ex_value e, ex_time_unix_nano e)) <$> l =
      omap
        (λ i, (λ dm : Z * Measurement,
                 (m_value dm.2, m_time_unix_nano dm.2))
              <$> last (filter (λ dm, routed r i dm = true) ms))
        (seq 0 (length (_reservoir_storage (Aligned_super r)))).
Proof.
  intros Hreach Hvacant.
  destruct (Aligned_offers_state ms r Hreach) as (r' & Hrun & _ & Hstate).
  destruct (run_shape (uncurry Offer <$> ms) (Aligned r)) as (_ & Hlen & _).
  rewrite Hrun in Hlen |- *. simpl in Hlen.
  destruct (collect_buckets_samples p (_reservoir_storage (Aligned_super r')))
    as (l & storage' & Hcb & Hl).
  exists l. rewrite collect_result. simpl. rewrite Hcb. split; [done|].
  rewrite Hl. apply list_omap_ext, Forall2_same_length_lookup.
  split; [by rewrite length_seq|].
  intros i b j Hb Hj.
  apply lookup_seq in Hj as [-> _]. simpl.
  specialize (Hstate i).
  destruct (last _) as [dm|]; simpl.
  - destruct Hstate as (b' & Hb' & Hoff & Hvalue & Htime & _).
    simplify_eq. by rewrite Hoff, Hvalue, Htime.
  - rewrite Hb in Hstate. symmetry in Hstate.
    rewrite Forall_forall in Hvacant.
    by rewrite (Hvacant b) by (by eapply list_elem_of_lookup_2).
Qed.

(** ** When [offer] raises *)

(** X17: on a reachable reservoir [offer] returns, unless the reservoir is
    a uniform one built with a size of 0 or less: then it raises
    [ValueError] and leaves the reservoir as it is. *)
Theorem offer_raises_only_without_bucket draw value time_unix_nano
    attributes ctx self :
  reachable self →
  let outcome := offer draw value time_unix_nano attributes ctx self in
  match self with
  | Simple r =>
      if decide (1 ≤ _size (Simple_super r))
      then outcome.1 = Ok ()
      else outcome = (Raise ValueError, self)
  | Aligned _ => outcome.1 = Ok ()
  end.
Proof.
  intros Hreach. destruct self as [r|r]; simpl.
  - case_decide as Hsize.
    + by rewrite Simple_offer_writes_first.
    + by rewrite Simple_offer_no_bucket by (done || lia).
  - destruct (find_bucket_index_selects value time_unix_nano attributes ctx r)
      as (n & Hn & _).
    by destruct (Aligned_offer_writes value time_unix_nano attributes ctx r n
                   Hreach Hn) as [_ ->].
Qed.

End Further.

(** ** The further properties at work *)

Section FurtherConcrete.
Existing Instance int_collaborators.

Lemma Z_leb_trans (x y z : Z) :
  (x <=? y) = true → (y <=? z) = true → (x <=? z) = true.
Proof. lia. Defined.

Lemma aligned_10_20_reachable : reachable (Aligned aligned_10_20).
Proof. by (eapply reachable_Aligned, Aligned_init_10_20). Defined.

Lemma simple_3_reachable : reachable (Simple (simple_of_size 3)).
Proof. by apply (reachable_Simple 3 []). Defined.

(** 5 has no attributes and sits in bucket 0, 15 has one and sits in
    bucket 1: [collect(None)] empties bucket 0, fails on bucket 1 and
    leaves it and bucket 2 alone. *)
Lemma collect_failure_state_witness :
  let self :=
    run [Offer 0 (sample 5); Offer 0 (sample_with "a" 15)]
      (Aligned aligned_10_20) in
  raises (collect None self).1 = true ∧
  ∃ pre b post pre',
    _reservoir_storage (base_of self) = pre ++ b :: post ∧
    Forall (λ b, holds_attributes b = false) pre ∧
    holds_attributes b = true ∧
    _reservoir_storage (base_of (collect None self).2) = pre' ++ b :: post ∧
    length pre' = length pre ∧
    Forall (λ b, __offered b = false) pre' ∧
    counter_reset (collect None self).2.
Proof.
  intros self. split; [vm_compute; reflexivity|].
  apply (collect_failure_state None self). vm_compute; reflexivity.
Defined.

Lemma offer_in_span_then_collect_witness :
  get_current_span (in_span 1 2) ≠ INVALID_SPAN ∧
  ∃ fa,
    ExemplarBucket_collect (Some {[ "a"%string := 7 ]})
      (ExemplarBucket_offer 5 6 (Some {[ "a"%string := 5 ]}) (in_span 1 2)
         ExemplarBucket_init) =
    (Ok (Some (mkExemplar fa 5 6 (Some 1) (Some 2))),
     ExemplarBucket_reset ExemplarBucket_init) ∧
    attributes_map fa =
      filter (λ kv : string * Z,
                ({[ "a"%string := 7 ]} : gmap string Z) !! kv.1 = None)
        (attributes_map (Some {[ "a"%string := 5 ]})).
Proof.
  split; [done|].
  apply (offer_in_span_then_collect (H:=int_collaborators) 5 6 (Some {[ "a"%string := 5 ]})
           (in_span 1 2) ExemplarBucket_init {[ "a"%string := 7 ]}).
  done.
Defined.

Lemma offer_no_span_then_collect_witness :
  blank ExemplarBucket_init ∧
  get_current_span no_span = INVALID_SPAN ∧
  ∃ fa,
    ExemplarBucket_collect (Some ∅)
      (ExemplarBucket_offer 5 6 None no_span ExemplarBucket_init) =
    (Ok (Some (mkExemplar fa 5 6 None None)),
     ExemplarBucket_reset ExemplarBucket_init) ∧
    attributes_map fa =
      filter (λ kv : string * Z, (∅ : gmap string Z) !! kv.1 = None)
        (attributes_map None).
Proof.
  split; [by left|]. split; [reflexivity|].
  apply (offer_no_span_then_collect (H:=int_collaborators) 5 6 None no_span ExemplarBucket_init ∅);
    [by left | reflexivity].
Defined.

Lemma later_offer_absorbs_witness :
  (get_current_span (in_span 3 4) ≠ INVALID_SPAN ∨
   get_current_span (in_span 1 2) = INVALID_SPAN) ∧
  ExemplarBucket_offer 8 8 None (in_span 3 4)
    (ExemplarBucket_offer 5 5 None (in_span 1 2) ExemplarBucket_init) =
  ExemplarBucket_offer 8 8 None (in_span 3 4) ExemplarBucket_init.
Proof.
  split; [by left|].
  apply (later_offer_absorbs (H:=int_collaborators) 5 5 None (in_span 1 2) 8 8 None (in_span 3 4)
           ExemplarBucket_init).
  by left.
Defined.

Lemma find_bucket_index_monotone_witness :
  (∀ x y z : Z, (x <=? y) = true → (y <=? z) = true → (x <=? z) = true) ∧
  (12 <=? 25) = true ∧
  AlignedHistogramBucketExemplarReservoir_find_bucket_index
    12 0 None no_span aligned_10_20 ≤
  AlignedHistogramBucketExemplarReservoir_find_bucket_index
    25 0 None no_span aligned_10_20.
Proof.
  split; [exact Z_leb_trans|]. split; [reflexivity|].
  apply (find_bucket_index_monotone (H:=int_collaborators) 12 0 None no_span 25 0 None no_span
           aligned_10_20); [exact Z_leb_trans | reflexivity].
Defined.

Lemma boundaries_10_20_sorted :
  StronglySorted (λ x y : Z, (x <=? y) = true) (_boundaries aligned_10_20).
Proof. repeat constructor. Defined.

Lemma find_bucket_index_sorted_witness :
  (∀ x y z : Z, (x <=? y) = true → (y <=? z) = true → (x <=? z) = true) ∧
  StronglySorted (λ x y : Z, (x <=? y) = true) (_boundaries aligned_10_20) ∧
  AlignedHistogramBucketExemplarReservoir_find_bucket_index
    15 0 None no_span aligned_10_20 =
  Z.of_nat
    (length (filter (λ boundary : Z, (15 <=? boundary) = false)
               (_boundaries aligned_10_20))).
Proof.
  split; [exact Z_leb_trans|]. split; [exact boundaries_10_20_sorted|].
  apply (find_bucket_index_sorted (H:=int_collaborators) 15 0 None no_span aligned_10_20);
    [exact Z_leb_trans | exact boundaries_10_20_sorted].
Defined.

Lemma Aligned_buckets_hold_last_witness :
  let ms := [(0, sample 5); (0, sample 25); (0, sample 8)] in
  reachable (Aligned aligned_10_20) ∧
  ∃ r',
    run (uncurry Offer <$> ms) (Aligned aligned_10_20) = Aligned r' ∧
    _boundaries r' = _boundaries aligned_10_20 ∧
    ∀ i : nat,
      match last (filter (λ dm, routed aligned_10_20 i dm = true) ms) with
      | Some dm =>
          ∃ b', _reservoir_storage (Aligned_super r') !! i = Some b' ∧
                holds_sample dm.2 b'
      | None =>
          _reservoir_storage (Aligned_super r') !! i =
            _reservoir_storage (Aligned_super aligned_10_20) !! i
      end.
Proof.
  intros ms. split; [exact aligned_10_20_reachable|].
  exact (Aligned_buckets_hold_last ms aligned_10_20 aligned_10_20_reachable).
Defined.

Lemma Simple_only_first_bucket_witness :
  reachable (Simple (simple_of_size 3)) ∧
  Forall (λ b, __offered b = false)
    (tail (_reservoir_storage (Simple_super (simple_of_size 3)))) ∧
  ∀ pa l,
    (collect pa (Simple (simple_of_size 3))).1 = Ok l → (length l ≤ 1)%nat.
Proof.
  split; [exact simple_3_reachable|].
  exact (Simple_only_first_bucket (simple_of_size 3) simple_3_reachable).
Defined.

Lemma Simple_offer_ignores_draw_witness :
  reachable (Simple (simple_of_size 3)) ∧
  SimpleFixedSizeExemplarReservoir_offer 0 5 5 None no_span
    (simple_of_size 3) =
  SimpleFixedSizeExemplarReservoir_offer 7 5 5 None no_span
    (simple_of_size 3).
Proof.
  split; [exact simple_3_reachable|].
  exact (Simple_offer_ignores_draw (H:=int_collaborators) 0 7 5 5 None no_span (simple_of_size 3)
           simple_3_reachable).
Defined.

(** A uniform reservoir of size 2 whose counter is at 5, as it would be had
    five measurements been counted: the draw 6 gives index 1. *)
Lemma Simple_offer_draw_branch_witness :
  let r :=
    mkSimple (mkFixedSize 2 [ExemplarBucket_init; ExemplarBucket_init]) 5 in
  0 < _measurements_seen r ∧
  _size (Simple_super r) ≤ _measurements_seen r ∧
  length (_reservoir_storage (Simple_super r)) =
    Z.to_nat (_size (Simple_super r)) ∧
  0 ≤ 6 `mod` _measurements_seen r < _measurements_seen r ∧
  SimpleFixedSizeExemplarReservoir_offer 6 9 9 None no_span r =
  (Ok (),
   {| Simple_super :=
        {| _size := _size (Simple_super r);
           _reservoir_storage :=
             if 6 `mod` _measurements_seen r <? _size (Simple_super r)
             then alter (ExemplarBucket_offer 9 9 None no_span)
                    (Z.to_nat (6 `mod` _measurements_seen r))
                    (_reservoir_storage (Simple_super r))
             else _reservoir_storage (Simple_super r) |};
      _measurements_seen := _measurements_seen r + 1 |}).
Proof.
  intros r. split; [done|]. split; [done|]. split; [done|].
  apply (Simple_offer_draw_branch (H:=int_collaborators) 6 9 9 None no_span r); done.
Defined.

Lemma constructors_reject_kwargs_witness :
  ["boundaries"%string] ≠ [] ∧
  SimpleFixedSizeExemplarReservoir_init 1 ["boundaries"%string] =
    Raise TypeError ∧
  AlignedHistogramBucketExemplarReservoir_init [10; 20]
    ["boundaries"%string] = Raise TypeError.
Proof.
  split; [done|].
  by apply (constructors_reject_kwargs (H:=int_collaborators) 1 [10; 20] ["boundaries"%string]).
Defined.

Lemma collect_restores_fresh_behaviour_witness :
  let history0 := [Offer 0 (sample 5); Offer 0 (sample_with "a" 15)] in
  let history := [Offer 0 (sample 25); Collect None] in
  constructed (Aligned aligned_10_20) ∧
  raises (collect (Some ∅) (run history0 (Aligned aligned_10_20))).1 = false ∧
  outcomes history
    (collect (Some ∅) (run history0 (Aligned aligned_10_20))).2 =
  outcomes history (Aligned aligned_10_20).
Proof.
  intros history0 history.
  assert (constructed (Aligned aligned_10_20)) as Hnew.
  { exists [10; 20], []. reflexivity. }
  split; [exact Hnew|]. split; [vm_compute; reflexivity|].
  apply (collect_restores_fresh_behaviour (Aligned aligned_10_20) history0
           (Some ∅) history Hnew).
  vm_compute; reflexivity.
Defined.

Lemma aligned_10_20_vacant :
  Forall (λ b, __offered b = false)
    (_reservoir_storage (Aligned_super aligned_10_20)).
Proof. repeat constructor. Defined.

(** 5, 25 and 8 are offered: 8 replaces 5 in bucket 0, bucket 1 stays
    empty, 25 is in bucket 2. *)
Lemma Aligned_collect_last_per_bucket_witness :
  let ms := [(0, sample 5); (0, sample 25); (0, sample 8)] in
  reachable (Aligned aligned_10_20) ∧
  Forall (λ b, __offered b = false)
    (_reservoir_storage (Aligned_super aligned_10_20)) ∧
  ∃ l,
    (collect (Some ∅) (run (uncurry Offer <$> ms) (Aligned aligned_10_20))).1
    = Ok l ∧
    (λ e, (ex_value e, ex_time_unix_nano e)) <$> l =
      omap
        (λ i, (λ dm : Z * Measurement,
                 (m_value dm.2, m_time_unix_nano dm.2))
              <$> last (filter (λ dm, routed aligned_10_20 i dm = true) ms))
        (seq 0 (length (_reservoir_storage (Aligned_super aligned_10_20)))).
Proof.
  intros ms. split; [exact aligned_10_20_reachable|].
  split; [exact aligned_10_20_vacant|].
  exact (Aligned_collect_last_per_bucket ms aligned_10_20 ∅
           aligned_10_20_reachable aligned_10_20_vacant).
Defined.

Lemma offer_raises_only_without_bucket_witness :
  reachable (Simple (simple_of_size 3)) ∧
  (offer 0 5 5 None no_span (Simple (simple_of_size 3))).1 = Ok ().
Proof.
  split; [exact simple_3_reachable|].
  exact (offer_raises_only_without_bucket 0 5 5 None no_span
           (Simple (simple_of_size 3)) simple_3_reachable).
Defined.

End FurtherConcrete.
